(** * agentcluster: the two-tier routing and tool-execution protocol

    A shallow embedding of [src/nftbrand.py] (the brand agent, whose
    decide / dispatch / synthesize cycle the other agents repeat line for
    line) and of [src/main.py] (the orchestrator and the [POST /chat]
    endpoint), followed by the properties of the protocol.

    Python values that arrive from JSON are kept dynamically typed ([json]);
    exceptions are values of [exc]; the two external collaborators (the
    decision service and the analytics REST API) are oracles of a [World];
    every call to them is recorded in a log, which is what the
    properties about "what was invoked, and in which order" talk about. *)

From Stdlib Require Import String List ZArith Bool Ascii Arith Lia.
Import ListNotations.

Local Open Scope string_scope.
Local Open Scope list_scope.

Set Warnings "-register-all".

(* ================================================================== *)
(** ** Python values, dictionaries, exceptions *)
(* ================================================================== *)

Module Py.

(** What [json.loads] and [response.json()] produce.  A Python [str] is
    kept as the string of its UTF-8 bytes; UTF-8 is self-synchronising, so
    the substring test [x in s] on code points and on bytes agree.  A dict
    is an association list in insertion order, read by first match.  Of the
    numbers only the integers are represented; no number is ever computed
    with. *)
Inductive json : Type :=
| JNull
| JBool (b : bool)
| JNum (n : Z)
| JStr (s : string)
| JArr (xs : list json)
| JObj (kv : list (string * json)).

Definition dict := list (string * json).

(** [d.get(k)] *)
Fixpoint dict_get (k : string) (d : dict) : option json :=
  match d with
  | [] => None
  | (k', v) :: d' => if String.eqb k k' then Some v else dict_get k d'
  end.

(** The exception classes the code distinguishes.  [RequestException]
    stands for [requests.exceptions.RequestException] and its subclasses,
    the only class a handler's [except] clause names; every class is caught
    by [except Exception]. *)
Inductive exc_class : Type :=
| RequestException
| TypeError
| ValueError
| HTTPException
| OtherException.

(** An exception: its class and [str(e)]. *)
Record exc : Type := Exc { exc_class_of : exc_class; exc_str : string }.

Definition result (A : Type) : Type := (exc + A)%type.

Definition is_request_exception (e : exc) : bool :=
  match exc_class_of e with RequestException => true | _ => false end.

(** [len(v)]: defined on strings, lists and dicts, a [TypeError] elsewhere. *)
Definition len (v : json) : result nat :=
  match v with
  | JStr s => inr (String.length s)
  | JArr xs => inr (List.length xs)
  | JObj kv => inr (List.length kv)
  | JNull => inl (Exc TypeError "object of type 'NoneType' has no len()")
  | JBool _ => inl (Exc TypeError "object of type 'bool' has no len()")
  | JNum _ => inl (Exc TypeError "object of type 'int' has no len()")
  end.

(** A value of type [Optional[str]] seen as a Python object. *)
Definition of_optional (o : option string) : json :=
  match o with Some s => JStr s | None => JNull end.

(** [needle in hay] on strings. *)
Fixpoint contains (needle hay : string) {struct hay} : bool :=
  if String.prefix needle hay then true
  else match hay with
       | EmptyString => false
       | String _ rest => contains needle rest
       end.

(** *** Calling a method with a dict unpacked into keywords

    [arguments] is whatever [json.loads] returned.  The call raises
    [TypeError] when it is not a mapping, when it has a key that is not a
    parameter of [f], and when a parameter without default has no key.
    The texts follow CPython's, short of the class prefix of the method
    and of the name of the type that is no mapping. *)

Fixpoint unexpected_keyword (params : list string) (kw : dict) : option string :=
  match kw with
  | [] => None
  | (k, _) :: kw' =>
      if existsb (String.eqb k) params then unexpected_keyword params kw'
      else Some k
  end.

Definition as_kwargs (fname : string) (params : list string) (arguments : json)
  : result dict :=
  match arguments with
  | JObj kw =>
      match unexpected_keyword params kw with
      | Some k =>
          inl (Exc TypeError
                 (fname ++ "() got an unexpected keyword argument '" ++ k ++ "'"))
      | None => inr kw
      end
  | _ => inl (Exc TypeError (fname ++ "() argument after ** must be a mapping"))
  end.

Definition kwarg (fname p : string) (default : option json) (kw : dict)
  : result json :=
  match dict_get p kw with
  | Some v => inr v
  | None =>
      match default with
      | Some d => inr d
      | None =>
          inl (Exc TypeError
                 (fname ++ "() missing 1 required positional argument: '" ++ p ++ "'"))
      end
  end.

End Py.
Import Py.

(* ================================================================== *)
(** ** The external collaborators and the effect monad *)
(* ================================================================== *)

Module Effects.

(** One entry of [message.tool_calls].  [tc_arguments] is the outcome of
    [json.loads(tool_call.function.arguments)]: [None] when the text is
    not JSON, in which case [json.loads] raises. *)
Record tool_call : Type := ToolCall {
  tc_id : string;
  tc_name : string;
  tc_arguments : option json
}.

(** [response.choices[0].message] *)
Record completion : Type := Completion {
  content : option string;
  tool_calls : list tool_call
}.

(** A turn of the conversation: a dict literal with role and content, the
    assistant's message object appended as it came, or a tool turn
    [{"role": "tool", "tool_call_id": id, "content": json.dumps(v)}],
    kept as the value [v] that was dumped. *)
Inductive message : Type :=
| MsgDict (role : string) (text : json)
| MsgAssistant (m : completion)
| MsgTool (tool_call_id : string) (dumped : json).

(** A declared operation: its name, its parameters, the required ones
    (descriptions and enumerations left out). *)
Record tool_definition : Type := ToolDef {
  td_name : string;
  td_properties : list string;
  td_required : list string
}.

(** [client.chat.completions.create(model=, messages=, tools=)]:
    [dr_tools] is [None] when the call passes no [tools]. *)
Record ds_request : Type := DsRequest {
  dr_messages : list message;
  dr_tools : option (list tool_definition)
}.

(** An f-string: literal text and formatted values. *)
Inductive fpart : Type :=
| Lit (s : string)
| Fmt (v : json).

(** [requests.get(url, headers=headers, params=params)] *)
Record http_request : Type := HttpRequest {
  hr_url : list fpart;
  hr_headers : list (string * string);
  hr_params : dict
}.

(** The environment.  The [n]-th call to the decision service with request
    [r] either raises or yields a message; the [n]-th GET either raises (in
    [requests.get], [raise_for_status] or [response.json()]) or yields the
    parsed body. *)
Record World : Type := {
  decision_service : nat -> ds_request -> result completion;
  collaborator : nat -> http_request -> result json
}.

(** The state threaded through a run: how many calls each collaborator
    has received, and the log of what happened, oldest first. *)
Record St (E : Type) : Type := MkSt {
  ds_calls : nat;
  http_calls : nat;
  log : list E
}.
Arguments MkSt {E}.
Arguments ds_calls {E}.
Arguments http_calls {E}.
Arguments log {E}.

Definition Mon (E A : Type) : Type := World -> St E -> result A * St E.

Definition ret {E A} (a : A) : Mon E A := fun _ s => (inr a, s).

Definition raise {E A} (e : exc) : Mon E A := fun _ s => (inl e, s).

Definition bind {E A B} (m : Mon E A) (k : A -> Mon E B) : Mon E B :=
  fun w s =>
    match m w s with
    | (inr a, s') => k a w s'
    | (inl e, s') => (inl e, s')
    end.

Definition lift {E A} (r : result A) : Mon E A := fun _ s => (r, s).

(** [try: m  except Exception as e: h e] *)
Definition try_except {E A} (m : Mon E A) (h : exc -> Mon E A) : Mon E A :=
  fun w s =>
    match m w s with
    | (inr a, s') => (inr a, s')
    | (inl e, s') => h e w s'
    end.

(** [try: m  except requests.exceptions.RequestException as e: h e] *)
Definition try_except_request {E A} (m : Mon E A) (h : exc -> Mon E A) : Mon E A :=
  fun w s =>
    match m w s with
    | (inr a, s') => (inr a, s')
    | (inl e, s') => if is_request_exception e then h e w s' else (inl e, s')
    end.

Definition emit {E} (e : E) : Mon E unit :=
  fun _ s => (inr tt, MkSt (ds_calls s) (http_calls s) (log s ++ [e])).

(** A block that runs only in verbose mode ([print]s are not modelled;
    what such a block evaluates, and may raise, is). *)
Definition when_verbose {E} (verbose : bool) (m : Mon E unit) : Mon E unit :=
  if verbose then m else ret tt.

Definition completions_create {E} (ev : ds_request -> E)
    (messages : list message) (tools : option (list tool_definition))
  : Mon E completion :=
  fun w s =>
    let req := DsRequest messages tools in
    (decision_service w (ds_calls s) req,
     MkSt (S (ds_calls s)) (http_calls s) (log s ++ [ev req])).

Definition requests_get {E} (ev : http_request -> E) (req : http_request)
  : Mon E json :=
  fun w s =>
    (collaborator w (http_calls s) req,
     MkSt (ds_calls s) (S (http_calls s)) (log s ++ [ev req])).

(** [json.loads(tool_call.function.arguments)] *)
Definition json_loads {E} (parsed : option json) : Mon E json :=
  match parsed with
  | Some v => ret v
  | None => raise (Exc ValueError "Expecting value: line 1 column 1 (char 0)")
  end.

(** What happens inside an agent run: a decision-service call, a call of
    the agent's dispatcher, a GET sent to the analytics API. *)
Inductive agent_event : Type :=
| AgDecide (req : ds_request)
| AgExecute (function_name : string) (arguments : json)
| AgGet (req : http_request).

(** Computations of an agent. *)
Definition AM (A : Type) : Type := Mon agent_event A.

(** A world that answers from two scripts, whatever the request. *)
Definition scripted (replies : list (result completion))
    (bodies : list (result json)) : World :=
  {| decision_service := fun n _ =>
       nth n replies (inl (Exc OtherException "no reply scripted"));
     collaborator := fun n _ =>
       nth n bodies (inl (Exc RequestException "no body scripted")) |}.

Definition start {E} : St E := MkSt 0 0 [].

End Effects.
Import Effects.

Declare Scope mon_scope.
Delimit Scope mon_scope with mon.
Notation "x <- m ;; k" := (bind m (fun x => k))
  (at level 61, m at next level, right associativity) : mon_scope.
Notation "m ;;; k" := (bind m (fun _ => k))
  (at level 61, right associativity) : mon_scope.
Local Open Scope mon_scope.

(* ================================================================== *)
(** ** src/nftbrand.py *)
(* ================================================================== *)

Module NFTBrandAgent.

(** The fields of the object that the methods read. *)
Record t : Type := Agent {
  api_key : string;
  verbose : bool
}.

Definition base_url : string := "https://api.unleashnfts.com/api/v1/brand".

Definition tools : list tool_definition :=
  [ ToolDef "get_brand_details" ["brand"; "time_range"] ["brand"];
    ToolDef "get_brand_metrics_by_contract"
            ["chain_id"; "contract_address"; "time_range"] ["contract_address"];
    ToolDef "get_brand_category_details" ["category"; "limit"; "offset"] ["category"] ].

Definition registry : list string := map td_name tools.

Definition headers (self : t) : list (string * string) :=
  [("accept", "application/json"); ("x-api-key", api_key self)].

(** The verbose report after a successful GET:
    [len(json.dumps(result))], then, [if isinstance(result, dict) and
    'data' in result], [len(result.get('data', []))]. *)
Definition report_items (result : json) : Py.result unit :=
  match result with
  | JObj kv =>
      match dict_get "data" kv with
      | Some d => match len d with inl e => inl e | inr _ => inr tt end
      | None => inr tt
      end
  | _ => inr tt
  end.

(** The [try] block every handler ends with. *)
Definition fetch (self : t) (url : list fpart) (params : dict) : AM json :=
  try_except_request
    (result <- requests_get AgGet (HttpRequest url (headers self) params) ;;
     when_verbose (verbose self) (lift (report_items result)) ;;;
     ret result)
    (fun e => ret (JObj [("error", JStr ("API request failed: " ++ exc_str e))])).

Definition get_brand_details (self : t) (brand time_range : json) : AM json :=
  fetch self [Lit base_url] [("brand", brand); ("time_range", time_range)].

Definition get_brand_metrics_by_contract (self : t)
    (contract_address chain_id time_range : json) : AM json :=
  fetch self [Lit base_url; Lit "/"; Fmt chain_id; Lit "/"; Fmt contract_address]
        [("time_range", time_range)].

Definition get_brand_category_details (self : t) (category limit offset : json)
  : AM json :=
  fetch self [Lit base_url; Lit "/category"]
        [("category", category); ("offset", offset); ("limit", limit)].

Definition unknown_function (function_name : string) : json :=
  JObj [("error", JStr ("Unknown function: " ++ function_name))].

Definition execute_function_call (self : t) (function_name : string)
    (arguments : json) : AM json :=
  emit (AgExecute function_name arguments) ;;;
  if function_name =? "get_brand_details" then
    kw <- lift (as_kwargs "get_brand_details" ["brand"; "time_range"] arguments) ;;
    brand <- lift (kwarg "get_brand_details" "brand" None kw) ;;
    time_range <- lift (kwarg "get_brand_details" "time_range" (Some (JStr "24h")) kw) ;;
    get_brand_details self brand time_range
  else if function_name =? "get_brand_metrics_by_contract" then
    kw <- lift (as_kwargs "get_brand_metrics_by_contract"
                  ["contract_address"; "chain_id"; "time_range"] arguments) ;;
    contract_address <-
      lift (kwarg "get_brand_metrics_by_contract" "contract_address" None kw) ;;
    chain_id <-
      lift (kwarg "get_brand_metrics_by_contract" "chain_id" (Some (JNum 1)) kw) ;;
    time_range <-
      lift (kwarg "get_brand_metrics_by_contract" "time_range" (Some (JStr "24h")) kw) ;;
    get_brand_metrics_by_contract self contract_address chain_id time_range
  else if function_name =? "get_brand_category_details" then
    kw <- lift (as_kwargs "get_brand_category_details"
                  ["category"; "limit"; "offset"] arguments) ;;
    category <- lift (kwarg "get_brand_category_details" "category" None kw) ;;
    limit <- lift (kwarg "get_brand_category_details" "limit" (Some (JNum 30)) kw) ;;
    offset <- lift (kwarg "get_brand_category_details" "offset" (Some (JNum 0)) kw) ;;
    get_brand_category_details self category limit offset
  else
    ret (unknown_function function_name).

(** The opening sentence of the system prompt (the rest is guidance text). *)
Definition system_prompt : string :=
  "You are an NFT Brand Metrics Assistant. You help users get information about NFT brand metrics using three main tools:".

Definition initial_messages (user_message : json) : list message :=
  [MsgDict "system" (JStr system_prompt); MsgDict "user" user_message].

(** The [for] loop over [message.tool_calls]: each request is parsed,
    executed, and answered by one tool turn appended to [messages]. *)
Fixpoint process_tool_calls (self : t) (calls : list tool_call)
    (messages : list message) : AM (list message) :=
  match calls with
  | [] => ret messages
  | tool_call :: rest =>
      function_args <- json_loads (tc_arguments tool_call) ;;
      function_result <-
        execute_function_call self (tc_name tool_call) function_args ;;
      process_tool_calls self rest
        (messages ++ [MsgTool (tc_id tool_call) function_result])
  end.

(** [print(f"... {len(text)} characters")] *)
Definition report_length (text : option string) : AM unit :=
  lift (match len (of_optional text) with inl e => inl e | inr _ => inr tt end).

Definition chat (self : t) (user_message : json) : AM (option string) :=
  try_except
    (let messages := initial_messages user_message in
     response <- completions_create AgDecide messages (Some tools) ;;
     match tool_calls response with
     | _ :: _ =>
         messages <- process_tool_calls self (tool_calls response)
                       (messages ++ [MsgAssistant response]) ;;
         final_response <- completions_create AgDecide messages None ;;
         let final_content := content final_response in
         when_verbose (verbose self) (report_length final_content) ;;;
         ret final_content
     | [] =>
         let direct_response := content response in
         when_verbose (verbose self) (report_length direct_response) ;;;
         ret direct_response
     end)
    (fun e => ret (Some ("An error occurred: " ++ exc_str e)%string)).

End NFTBrandAgent.

(* ================================================================== *)
(** ** src/main.py: the orchestrator *)
(* ================================================================== *)

Module NFTOrchestrator.

Inductive agent_id : Type :=
| gaming | price_estimation | brand | defi | fungible | wallet | token | portfolio.

(** The value of the ["agent"] key in an outcome. *)
Definition agent_label (a : agent_id) : string :=
  match a with
  | gaming => "gaming"
  | price_estimation => "price_estimation"
  | brand => "brand"
  | defi => "defi"
  | fungible => "fungible"
  | wallet => "wallet"
  | token => "token"
  | portfolio => "portfolio"
  end.

(** What happens inside an orchestrator run.  [EvAgentBegin a q] marks the
    call [self.a_agent.chat(q)], [EvAgentEnd a] its return, and
    [EvAgent a e] an event [e] of that agent's run in between. *)
Inductive event : Type :=
| EvDecide (req : ds_request)
| EvRoute (function_name : string) (arguments : json)
| EvAgentBegin (a : agent_id) (query : json)
| EvAgent (a : agent_id) (e : agent_event)
| EvAgentEnd (a : agent_id)
| EvSleep (seconds : nat).

Definition OM (A : Type) : Type := Mon event A.

(** The [chat] method of an agent object. *)
Definition agent_chat : Type := json -> AM (option string).

(** The fields of the orchestrator that the methods read.
    [price_agent] comes from [nftpriceEstimate], a module that the
    orchestrator only imports; like every agent it is used through its
    [chat] method alone. *)
Record t : Type := Orchestrator {
  verbose : bool;
  gaming_agent : agent_chat;
  price_agent : agent_chat;
  brand_agent : agent_chat;
  defi_agent : agent_chat;
  fungible_agent : agent_chat;
  wallet_agent : agent_chat;
  token_agent : agent_chat;
  portfolio_agent : agent_chat
}.

Definition single_route (name : string) : tool_definition :=
  ToolDef name ["query"; "reason"] ["query"; "reason"].

Definition routing_tools : list tool_definition :=
  [ single_route "route_to_gaming_agent";
    single_route "route_to_price_agent";
    single_route "route_to_brand_agent";
    single_route "route_to_defi_agent";
    single_route "route_to_fungible_agent";
    single_route "route_to_wallet_agent";
    single_route "route_to_token_agent";
    single_route "route_to_portfolio_agent";
    ToolDef "route_to_both_agents" ["gaming_query"; "price_query"; "reason"]
            ["gaming_query"; "price_query"; "reason"] ].

(** Runs an agent's computation inside the orchestrator's: the counters
    of the two collaborators are shared, the agent's events enter the log
    tagged with the agent. *)
Definition in_agent {A} (a : agent_id) (m : AM A) : OM A :=
  fun w s =>
    let '(r, s') := m w (MkSt (ds_calls s) (http_calls s) []) in
    (r, MkSt (ds_calls s') (http_calls s') (log s ++ map (EvAgent a) (log s'))).

(** [self.a_agent.chat(query)] *)
Definition call_agent (a : agent_id) (agent : agent_chat) (query : json)
  : OM (option string) :=
  emit (EvAgentBegin a query) ;;;
  result <- in_agent a (agent query) ;;
  emit (EvAgentEnd a) ;;;
  ret result.

(** The body shared by the eight [route_to_<agent>_agent] methods. *)
Definition route_to (a : agent_id) (error_prefix : string) (agent : agent_chat)
    (query reason : json) : OM json :=
  try_except
    (result <- call_agent a agent query ;;
     ret (JObj [("agent", JStr (agent_label a)); ("query", query);
                ("reason", reason); ("response", of_optional result)]))
    (fun e =>
       ret (JObj [("agent", JStr (agent_label a)); ("query", query);
                  ("reason", reason);
                  ("error", JStr (error_prefix ++ exc_str e))])).

Definition route_to_gaming_agent (self : t) :=
  route_to gaming "Gaming agent error: " (gaming_agent self).
Definition route_to_price_agent (self : t) :=
  route_to price_estimation "Price agent error: " (price_agent self).
Definition route_to_brand_agent (self : t) :=
  route_to brand "Brand agent error: " (brand_agent self).
Definition route_to_defi_agent (self : t) :=
  route_to defi "DeFi agent error: " (defi_agent self).
Definition route_to_fungible_agent (self : t) :=
  route_to fungible "Fungible token agent error: " (fungible_agent self).
Definition route_to_wallet_agent (self : t) :=
  route_to wallet "Wallet analytics agent error: " (wallet_agent self).
Definition route_to_token_agent (self : t) :=
  route_to token "Token analytics agent error: " (token_agent self).
Definition route_to_portfolio_agent (self : t) :=
  route_to portfolio "Portfolio analysis agent error: " (portfolio_agent self).

Definition route_to_both_agents (self : t) (gaming_query price_query reason : json)
  : OM json :=
  try_except
    (gaming_result <- call_agent gaming (gaming_agent self) gaming_query ;;
     emit (EvSleep 1) ;;;
     price_result <- call_agent price_estimation (price_agent self) price_query ;;
     ret (JObj [("agent", JStr "both"); ("gaming_query", gaming_query);
                ("price_query", price_query); ("reason", reason);
                ("gaming_response", of_optional gaming_result);
                ("price_response", of_optional price_result)]))
    (fun e =>
       ret (JObj [("agent", JStr "both"); ("gaming_query", gaming_query);
                  ("price_query", price_query); ("reason", reason);
                  ("error", JStr ("Both agents error: " ++ exc_str e))])).

(** [self.route_to_<agent>_agent( **arguments)] *)
Definition call_route (fname : string) (route : json -> json -> OM json)
    (arguments : json) : OM json :=
  kw <- lift (as_kwargs fname ["query"; "reason"] arguments) ;;
  query <- lift (kwarg fname "query" None kw) ;;
  reason <- lift (kwarg fname "reason" None kw) ;;
  route query reason.

Definition unknown_routing_function (function_name : string) : json :=
  JObj [("error", JStr ("Unknown routing function: " ++ function_name))].

Definition execute_routing_call (self : t) (function_name : string)
    (arguments : json) : OM json :=
  emit (EvRoute function_name arguments) ;;;
  if function_name =? "route_to_gaming_agent" then
    call_route "route_to_gaming_agent" (route_to_gaming_agent self) arguments
  else if function_name =? "route_to_price_agent" then
    call_route "route_to_price_agent" (route_to_price_agent self) arguments
  else if function_name =? "route_to_brand_agent" then
    call_route "route_to_brand_agent" (route_to_brand_agent self) arguments
  else if function_name =? "route_to_defi_agent" then
    call_route "route_to_defi_agent" (route_to_defi_agent self) arguments
  else if function_name =? "route_to_fungible_agent" then
    call_route "route_to_fungible_agent" (route_to_fungible_agent self) arguments
  else if function_name =? "route_to_wallet_agent" then
    call_route "route_to_wallet_agent" (route_to_wallet_agent self) arguments
  else if function_name =? "route_to_token_agent" then
    call_route "route_to_token_agent" (route_to_token_agent self) arguments
  else if function_name =? "route_to_portfolio_agent" then
    call_route "route_to_portfolio_agent" (route_to_portfolio_agent self) arguments
  else if function_name =? "route_to_both_agents" then
    kw <- lift (as_kwargs "route_to_both_agents"
                  ["gaming_query"; "price_query"; "reason"] arguments) ;;
    gaming_query <- lift (kwarg "route_to_both_agents" "gaming_query" None kw) ;;
    price_query <- lift (kwarg "route_to_both_agents" "price_query" None kw) ;;
    reason <- lift (kwarg "route_to_both_agents" "reason" None kw) ;;
    route_to_both_agents self gaming_query price_query reason
  else
    ret (unknown_routing_function function_name).

(** The opening sentence of the system prompt (the rest lists the agents,
    the routing rules and the keyword hints). *)
Definition system_prompt : string :=
  "You are an NFT Query Orchestrator. You analyze user queries and route them to the appropriate specialized agent:".

Definition initial_messages (user_message : string) : list message :=
  [MsgDict "system" (JStr system_prompt); MsgDict "user" (JStr user_message)].

(** The [for] loop over the routing calls: each is parsed, executed,
    its outcome added to [routing_results] and answered by one tool turn
    appended to [messages]. *)
Fixpoint process_routing_calls (self : t) (calls : list tool_call)
    (messages : list message) (routing_results : list json)
  : OM (list message * list json) :=
  match calls with
  | [] => ret (messages, routing_results)
  | tool_call :: rest =>
      function_args <- json_loads (tc_arguments tool_call) ;;
      routing_result <-
        execute_routing_call self (tc_name tool_call) function_args ;;
      process_routing_calls self rest
        (messages ++ [MsgTool (tc_id tool_call) routing_result])
        (routing_results ++ [routing_result])
  end.

(** [print(f"... {len(text)} characters")] *)
Definition report_length (text : option string) : OM unit :=
  lift (match len (of_optional text) with inl e => inl e | inr _ => inr tt end).

Definition chat (self : t) (user_message : string) : OM (option string) :=
  try_except
    (let messages := initial_messages user_message in
     response <- completions_create EvDecide messages (Some routing_tools) ;;
     match tool_calls response with
     | _ :: _ =>
         looped <- process_routing_calls self (tool_calls response)
                     (messages ++ [MsgAssistant response]) [] ;;
         final_response <- completions_create EvDecide (fst looped) None ;;
         let final_content := content final_response in
         when_verbose (verbose self) (report_length final_content) ;;;
         ret final_content
     | [] =>
         let direct_response := content response in
         when_verbose (verbose self) (report_length direct_response) ;;;
         ret direct_response
     end)
    (fun e => ret (Some ("An error occurred: " ++ exc_str e)%string)).

End NFTOrchestrator.

(* ================================================================== *)
(** ** src/main.py: the [POST /chat] endpoint *)
(* ================================================================== *)

Module Api.

Import NFTOrchestrator.

Record ChatRequest : Type := {
  message : string;
  req_verbose : bool
}.

Record ChatResponse : Type := {
  response : string;
  agent_used : string;
  query : string;
  reason : string;
  success : bool;
  error : option string
}.

(** The [if]/[elif] chain on the text of the answer: the label and the
    reason it yields, in the order of the source. *)
Definition classify (response : string) : string * string :=
  if contains "🎮" response && contains "Gaming" response then
    ("gaming", "Query routed to NFT Gaming Agent")
  else if contains "💰" response && contains "Price" response then
    ("price_estimation", "Query routed to NFT Price Estimation Agent")
  else if contains "🏷️" response && contains "Brand" response then
    ("brand", "Query routed to NFT Brand Agent")
  else if contains "🔄" response && contains "DeFi" response then
    ("defi", "Query routed to NFT DeFi Agent")
  else if contains "🪙" response && contains "Fungible" response then
    ("fungible", "Query routed to NFT Fungible Token Agent")
  else if contains "💼" response && contains "Wallet" response then
    ("wallet", "Query routed to NFT Wallet Analytics Agent")
  else if contains "🪙" response && contains "Token" response then
    ("token", "Query routed to NFT Token Analytics Agent")
  else if contains "💼" response && contains "Portfolio" response then
    ("portfolio", "Query routed to Portfolio Analysis Agent")
  else if contains "Multi-Agent" response then
    ("multiple", "Query processed by multiple agents")
  else
    ("unknown", "Query processed by orchestrator").

(** The same chain on what [chat] returned: the first test, [x in
    response], raises when [response] is [None]. *)
Definition classify_response (response : option string)
  : result (string * string * string) :=
  match response with
  | Some text => inr (text, fst (classify text), snd (classify text))
  | None => inl (Exc TypeError "argument of type 'NoneType' is not iterable")
  end.

Definition set_verbose (o : NFTOrchestrator.t) (v : bool) : NFTOrchestrator.t :=
  Orchestrator v (gaming_agent o) (price_agent o) (brand_agent o) (defi_agent o)
    (fungible_agent o) (wallet_agent o) (token_agent o) (portfolio_agent o).

(** [get_orchestrator] is the outcome of [get_orchestrator()]: the shared
    instance, or the exception its construction raised. *)
Definition chat_endpoint (get_orchestrator : result NFTOrchestrator.t)
    (request : ChatRequest) : OM ChatResponse :=
  try_except
    (orchestrator <- lift get_orchestrator ;;
     let orchestrator := set_verbose orchestrator (req_verbose request) in
     response <- NFTOrchestrator.chat orchestrator (message request) ;;
     labelled <- lift (classify_response response) ;;
     ret {| response := fst (fst labelled);
            agent_used := snd (fst labelled);
            query := message request;
            reason := snd labelled;
            success := true;
            error := None |})
    (fun e =>
       ret {| response := "";
              agent_used := "error";
              query := message request;
              reason := "Error occurred during processing";
              success := false;
              error := Some (exc_str e) |}).

End Api.

(* ================================================================== *)
(** ** Vocabulary of the properties *)
(* ================================================================== *)

Module Vocabulary.

Import NFTBrandAgent.

(** The state [s] after the events [evs]. *)
Definition logged {E} (s : St E) (evs : list E) : St E :=
  MkSt (ds_calls s) (http_calls s) (log s ++ evs).

(** What a run of [m] from [s] adds to the log. *)
Definition events_of {E A} (m : Mon E A) (w : World) (s : St E) : list E :=
  skipn (length (log s)) (log (snd (m w s))).

(** The failure record a handler returns for a transport failure. *)
Definition api_failure (e : exc) : json :=
  JObj [("error", JStr ("API request failed: " ++ exc_str e))].

(** What a handler returns for the outcome [r] of its GET, when it
    returns. *)
Definition payload_or_failure (r : result json) : json :=
  match r with inr body => body | inl e => api_failure e end.

(** The outcome of a GET that the handler turns into a result: a
    transport failure of the [RequestException] family, or a body that the
    verbose report can measure. *)
Definition answers_cleanly (self : NFTBrandAgent.t) (r : result json) : Prop :=
  match r with
  | inr body => NFTBrandAgent.verbose self = true -> report_items body = inr tt
  | inl e => is_request_exception e = true
  end.

Definition has_key (k : string) (kw : dict) : bool :=
  match dict_get k kw with Some _ => true | None => false end.

(** An argument mapping that follows the declared schema of a tool: a
    dict, every key a declared parameter, every required parameter a key. *)
Definition conforms (td : tool_definition) (arguments : json) : bool :=
  match arguments with
  | JObj kw =>
      forallb (fun kv => existsb (String.eqb (fst kv)) (td_properties td)) kw
      && forallb (fun p => has_key p kw) (td_required td)
  | _ => false
  end.

(** The tool turns [turns] answer the requests [calls]: one turn per
    request, in the order of the requests, each carrying the identifier of
    its request. *)
Definition answers (calls : list tool_call) (turns : list message) : Prop :=
  Forall2 (fun tc m => exists v, m = MsgTool (tc_id tc) v) calls turns.

(** The agent's first request, and the state once it has been sent. *)
Definition round1 (user_message : json) : ds_request :=
  DsRequest (initial_messages user_message) (Some tools).

Definition decided (s : St agent_event) (req : ds_request) : St agent_event :=
  MkSt (S (ds_calls s)) (http_calls s) (log s ++ [AgDecide req]).

Definition is_decide (e : agent_event) : bool :=
  match e with AgDecide _ => true | _ => false end.

(** From [s] to [s'] the agent called the decision service not once:
    the counter stands, and the log grew by events that are no decision
    calls. *)
Definition extends_quietly (s s' : St agent_event) : Prop :=
  ds_calls s' = ds_calls s /\
  exists evs, log s' = log s ++ evs /\ existsb is_decide evs = false.

(** *** The orchestrator *)

Import NFTOrchestrator.

(** The orchestrator's first request, and the state once it has been
    sent. *)
Definition routing_round (user_message : string) : ds_request :=
  DsRequest (NFTOrchestrator.initial_messages user_message) (Some routing_tools).

Definition routed (s : St event) (req : ds_request) : St event :=
  MkSt (S (ds_calls s)) (http_calls s) (log s ++ [EvDecide req]).

(** The run of an agent called in state [s]: it starts from the counters
    of [s] with a log of its own. *)
Definition agent_run (agent : agent_chat) (query : json) (w : World)
    (s : St event) : result (option string) * St agent_event :=
  agent query w (MkSt (ds_calls s) (http_calls s) []).

(** The state of the orchestrator when that run is over. *)
Definition after_agent (a : agent_id) (query : json) (s : St event)
    (r : result (option string) * St agent_event) : St event :=
  MkSt (ds_calls (snd r)) (http_calls (snd r))
       (log s ++ EvAgentBegin a query :: map (EvAgent a) (log (snd r)) ++
        match fst r with inr _ => [EvAgentEnd a] | inl _ => [] end).

(** The outcome a [route_to_<agent>_agent] method returns. *)
Definition agent_outcome (a : agent_id) (error_prefix : string)
    (query reason : json) (r : result (option string)) : json :=
  match r with
  | inr text =>
      JObj [("agent", JStr (agent_label a)); ("query", query);
            ("reason", reason); ("response", of_optional text)]
  | inl e =>
      JObj [("agent", JStr (agent_label a)); ("query", query);
            ("reason", reason); ("error", JStr (error_prefix ++ exc_str e))]
  end.

(** The agent that a single-agent routing operation names. *)
Definition route_agent (function_name : string) : option agent_id :=
  if function_name =? "route_to_gaming_agent" then Some gaming
  else if function_name =? "route_to_price_agent" then Some price_estimation
  else if function_name =? "route_to_brand_agent" then Some brand
  else if function_name =? "route_to_defi_agent" then Some defi
  else if function_name =? "route_to_fungible_agent" then Some fungible
  else if function_name =? "route_to_wallet_agent" then Some wallet
  else if function_name =? "route_to_token_agent" then Some token
  else if function_name =? "route_to_portfolio_agent" then Some portfolio
  else None.

Definition is_agent_begin (e : event) : bool :=
  match e with EvAgentBegin _ _ => true | _ => false end.

(** The number of agent invocations in a log. *)
Definition agent_invocations (l : list event) : nat :=
  length (filter is_agent_begin l).

Definition is_routing_decide (e : event) : bool :=
  match e with EvDecide _ => true | _ => false end.

(** From [s] to [s'] the log grew by events that hold at most [n] agent
    invocations and no decision call of the orchestrator. *)
Definition extends_by (n : nat) (s s' : St event) : Prop :=
  exists evs, log s' = log s ++ evs /\ agent_invocations evs <= n /\
              existsb is_routing_decide evs = false.

(** *** The endpoint *)

Import Api.

(** The response of the endpoint when [chat] returned [text]. *)
Definition answered (request : ChatRequest) (text : string) : ChatResponse :=
  {| response := text;
     agent_used := fst (classify text);
     query := message request;
     reason := snd (classify text);
     success := true;
     error := None |}.

(** The response of the endpoint when [e] was raised inside it. *)
Definition failed (request : ChatRequest) (e : exc) : ChatResponse :=
  {| response := "";
     agent_used := "error";
     query := message request;
     reason := "Error occurred during processing";
     success := false;
     error := Some (exc_str e) |}.

(** The exception of [x in response] when [response] is [None]. *)
Definition not_iterable : exc :=
  Exc TypeError "argument of type 'NoneType' is not iterable".

(** One test of the chain: both substrings occur. *)
Definition matches (emoji word text : string) : bool :=
  contains emoji text && contains word text.

(** One of the five tests that come before the wallet test succeeds. *)
Definition matches_before_wallet (text : string) : bool :=
  matches "🎮" "Gaming" text || matches "💰" "Price" text ||
  matches "🏷️" "Brand" text || matches "🔄" "DeFi" text ||
  matches "🪙" "Fungible" text.

(** One of the nine tests succeeds. *)
Definition matches_some_pattern (text : string) : bool :=
  matches_before_wallet text || matches "💼" "Wallet" text ||
  matches "🪙" "Token" text || matches "💼" "Portfolio" text ||
  contains "Multi-Agent" text.

End Vocabulary.
Import Vocabulary.

(* ================================================================== *)
(** ** Scenarios *)
(* ================================================================== *)

Module Scenarios.

(** A brand agent as the orchestrator builds it: verbose. *)
Definition brand_agent : NFTBrandAgent.t := NFTBrandAgent.Agent "api-key" true.

(** A world in which nobody answers. *)
Definition silent : World := scripted [] [].

Definition starbucks_call : tool_call :=
  ToolCall "call_1" "get_brand_details" (Some (JObj [("brand", JStr "StarBucks")])).

Definition nike_call : tool_call :=
  ToolCall "call_2" "get_brand_details"
           (Some (JObj [("brand", JStr "Nike"); ("time_range", JStr "7d")])).

Definition weather_call : tool_call :=
  ToolCall "call_3" "get_weather" (Some (JObj [("city", JStr "Seattle")])).

Definition brand_metrics : json :=
  JObj [("data", JArr [JObj [("brand", JStr "Nike"); ("holders", JNum 42)]])].

Definition timeout : exc := Exc RequestException "Read timed out.".

(** The decision service asks for an unknown operation between two known
    ones; the analytics API answers both GETs. *)
Definition unknown_between : World :=
  scripted
    [inr (Completion None [starbucks_call; weather_call; nike_call]);
     inr (Completion (Some "Here are the brand metrics.") [])]
    [inr brand_metrics; inr brand_metrics].

(** A request for brand details that names no brand. *)
Definition brandless_call : tool_call :=
  ToolCall "call_4" "get_brand_details" (Some (JObj [])).

(** The decision service asks for an unknown operation and then for brand
    details without a brand; it would answer a second call, and the
    analytics API a GET. *)
Definition unknown_then_brandless : World :=
  scripted
    [inr (Completion None [weather_call; brandless_call]);
     inr (Completion (Some "There is no weather operation.") [])]
    [inr brand_metrics].

(** The decision service asks for two operations; the first GET times out,
    the second is answered. *)
Definition first_times_out : World :=
  scripted
    [inr (Completion None [starbucks_call; nike_call]);
     inr (Completion (Some "Nike has 42 holders; Starbucks is unavailable.") [])]
    [inl timeout; inr brand_metrics].

(** The scenarios route to the brand agent only; the place of an agent
    that no scenario calls is held by one that answers nothing. *)
Definition not_called : NFTOrchestrator.agent_chat := fun _ => ret None.

Definition orchestrator : NFTOrchestrator.t :=
  NFTOrchestrator.Orchestrator true
    not_called not_called (NFTBrandAgent.chat brand_agent)
    not_called not_called not_called not_called not_called.

Definition route_to_brand (id brand_name : string) : tool_call :=
  ToolCall id "route_to_brand_agent"
    (Some (JObj [("query", JStr ("Get brand details for " ++ brand_name));
                 ("reason", JStr "The query names a brand")])).

(** The decision service is down. *)
Definition outage : World :=
  scripted [inl (Exc OtherException "Connection error.")] [].

(** The routing round asks for three agent runs at once. *)
Definition three_brands : World :=
  scripted
    [inr (Completion None
            [route_to_brand "r1" "Nike"; route_to_brand "r2" "Adidas";
             route_to_brand "r3" "Puma"]);
     inr (Completion (Some "Nike is a sportswear brand.") []);
     inr (Completion (Some "Adidas is a sportswear brand.") []);
     inr (Completion (Some "Puma is a sportswear brand.") []);
     inr (Completion (Some "All three are sportswear brands.") [])]
    [].

(** The routing round sends the query to the brand agent, which answers
    from one GET. *)
Definition starbucks_routed : World :=
  scripted
    [inr (Completion None [route_to_brand "r1" "Starbucks"]);
     inr (Completion None [starbucks_call]);
     inr (Completion (Some "Starbucks has 42 holders.") []);
     inr (Completion (Some "Starbucks has 42 holders.") [])]
    [inr brand_metrics].

(** The decision service answers with a text about gaming wallets. *)
Definition gaming_wallets : World :=
  scripted [inr (Completion (Some "🎮 Gaming wallets: 💼 Wallet 0xabc holds 3 items") [])]
           [].

End Scenarios.

(* ================================================================== *)
(** ** src/nftbrand.py: construction of the agent *)
(* ================================================================== *)

Module Construction.

(** [os.getenv], once [load_dotenv()] has run. *)
Definition environ : Type := string -> option string.

(** [not value], for a value that is a string or [None]. *)
Definition falsy (value : option string) : bool :=
  match value with
  | None => true
  | Some text => text =? ""
  end.

(** [OpenAI(api_key=...)], the constructor of the client of the decision
    service: it returns or raises.  The client it returns is the decision
    service of the world. *)
Definition openai : Type := string -> result unit.

(** The text of a key that has passed the test [not key]. *)
Definition text_of (value : option string) : string :=
  match value with Some text => text | None => "" end.

(** [NFTBrandAgent.__init__]: the two keys are read, the OpenAI key is
    checked first and the analytics key second, the client is constructed
    from the OpenAI key, and the agent keeps the analytics key.  The
    assignments that follow hold constants. *)
Definition init (OpenAI : openai) (getenv : environ) (verbose : bool)
  : result NFTBrandAgent.t :=
  let openai_api_key := getenv "OPENAI_API_KEY" in
  let unleash_api_key := getenv "UNLEASH_NFTS_API_KEY" in
  if falsy openai_api_key then
    inl (Exc ValueError "OPENAI_API_KEY not found in .env file")
  else if falsy unleash_api_key then
    inl (Exc ValueError "UNLEASH_NFTS_API_KEY not found in .env file")
  else
    match OpenAI (text_of openai_api_key) with
    | inl e => inl e
    | inr _ => inr (NFTBrandAgent.Agent (text_of unleash_api_key) verbose)
    end.

End Construction.

(* ================================================================== *)
(** ** src/main.py: the shared instance and the formatted answer *)
(* ================================================================== *)

Module Service.

(** What [get_orchestrator] raises: the [HTTPException] it builds, or an
    exception of the constructor that it does not catch. *)
Inductive raised : Type :=
| HTTPError (status_code : nat) (detail : string)
| Uncaught (e : exc).

(** [get_orchestrator()].  [orchestrator_instance] is the module global,
    returned beside the outcome; [construct] is what
    [NFTOrchestrator(verbose=True)] yields at the time of the call. *)
Definition get_orchestrator (construct : result NFTOrchestrator.t)
    (orchestrator_instance : option NFTOrchestrator.t)
  : (raised + NFTOrchestrator.t) * option NFTOrchestrator.t :=
  match orchestrator_instance with
  | Some instance => (inr instance, Some instance)
  | None =>
      match construct with
      | inr instance => (inr instance, Some instance)
      | inl e =>
          match exc_class_of e with
          | ValueError =>
              (inl (HTTPError 500
                      ("Failed to initialize orchestrator: " ++ exc_str e)),
               None)
          | _ => (inl (Uncaught e), None)
          end
      end
  end.

Definition nl : string := String "010"%char EmptyString.

(** The lines of a triple-quoted literal. *)
Definition lines (ls : list string) : string := String.concat nl ls.

(** [d.get(k, default)] *)
Definition get_or (k : string) (default : json) (d : dict) : json :=
  match dict_get k d with Some v => v | None => default end.

(** [routing_result.get("agent") == name] *)
Definition agent_is (routing_result : dict) (name : string) : bool :=
  match dict_get "agent" routing_result with
  | Some (JStr label) => label =? name
  | _ => false
  end.

(** The f-string of a single agent's branch. *)
Definition agent_response (title processed_by : string) (routing_result : dict)
  : list fpart :=
  [Lit (lines [title; ""; ""]);
   Fmt (get_or "response" (JStr "No response available") routing_result);
   Lit (lines [""; ""; "---"; processed_by])].

(** [NFTOrchestrator.format_final_response], as the f-string it
    evaluates. *)
Definition format_final_response (routing_result : dict) : list fpart :=
  if agent_is routing_result "both" then
    let gaming_response :=
      get_or "gaming_response" (JStr "No gaming data available") routing_result in
    let price_response :=
      get_or "price_response" (JStr "No price data available") routing_result in
    [Lit (lines ["🤖 **Multi-Agent Response**"; ""; "🎮 **Gaming Metrics:**"; ""]);
     Fmt gaming_response;
     Lit (lines [""; ""; "💰 **Price Estimation:**"; ""]);
     Fmt price_response;
     Lit (lines [""; ""; "---";
                 "*This response combines data from both the NFT Gaming Agent and NFT Price Estimation Agent.*"])]
  else if agent_is routing_result "gaming" then
    agent_response "🎮 **NFT Gaming Response**"
                   "*Processed by NFT Gaming Agent*" routing_result
  else if agent_is routing_result "price_estimation" then
    agent_response "💰 **NFT Price Estimation Response**"
                   "*Processed by NFT Price Estimation Agent*" routing_result
  else if agent_is routing_result "brand" then
    agent_response "🏷️ **NFT Brand Response**"
                   "*Processed by NFT Brand Agent*" routing_result
  else if agent_is routing_result "defi" then
    agent_response "🔄 **NFT DeFi Response**"
                   "*Processed by NFT DeFi Agent*" routing_result
  else if agent_is routing_result "fungible" then
    agent_response "🪙 **NFT Fungible Token Response**"
                   "*Processed by NFT Fungible Token Agent*" routing_result
  else if agent_is routing_result "wallet" then
    agent_response "💼 **NFT Wallet Analytics Response**"
                   "*Processed by NFT Wallet Analytics Agent*" routing_result
  else if agent_is routing_result "token" then
    agent_response "🪙 **NFT Token Analytics Response**"
                   "*Processed by NFT Token Analytics Agent*" routing_result
  else if agent_is routing_result "portfolio" then
    agent_response "💼 **Portfolio Analysis Response**"
                   "*Processed by Portfolio Analysis Agent*" routing_result
  else
    [Lit "❌ Error: "; Fmt (get_or "error" (JStr "Unknown error") routing_result)].

(** The text of an f-string whose formatted values are strings or [None]
    ([str] of the other values is not represented). *)
Fixpoint fstring_text (parts : list fpart) : option string :=
  match parts with
  | [] => Some ""
  | part :: rest =>
      match fstring_text rest with
      | None => None
      | Some tail =>
          match part with
          | Lit text => Some (text ++ tail)%string
          | Fmt (JStr text) => Some (text ++ tail)%string
          | Fmt JNull => Some ("None" ++ tail)%string
          | Fmt _ => None
          end
      end
  end.

End Service.

(* ================================================================== *)
(** ** src/nftgaming.py: the handlers and the dispatcher *)
(* ================================================================== *)

Module NFTGamingAgent.

Record t : Type := Agent {
  api_key : string;
  verbose : bool
}.

Definition base_url : string := "https://api.unleashnfts.com/api/v2/nft/gaming".

Definition headers (self : t) : list (string * string) :=
  [("accept", "application/json"); ("x-api-key", api_key self)].

(** The truth value of a Python object in a condition. *)
Definition truthy (v : json) : bool :=
  match v with
  | JNull => false
  | JBool b => b
  | JNum n => negb (Z.eqb n 0)
  | JStr text => negb (text =? "")
  | JArr xs => match xs with [] => false | _ => true end
  | JObj kv => match kv with [] => false | _ => true end
  end.

(** [type(v).__name__] *)
Definition type_name (v : json) : string :=
  match v with
  | JNull => "NoneType"
  | JBool _ => "bool"
  | JNum _ => "int"
  | JStr _ => "str"
  | JArr _ => "list"
  | JObj _ => "dict"
  end.

(** The [try] block every handler ends with, the one of the brand agent
    word for word. *)
Definition fetch (self : t) (url : list fpart) (params : dict) : AM json :=
  try_except_request
    (result <- requests_get AgGet (HttpRequest url (headers self) params) ;;
     when_verbose (verbose self) (lift (NFTBrandAgent.report_items result)) ;;;
     ret result)
    (fun e => ret (JObj [("error", JStr ("API request failed: " ++ exc_str e))])).

Definition get_game_contracts_info (self : t) (limit offset blockchain : json)
  : AM json :=
  let params :=
    [("offset", offset); ("limit", limit); ("sort_by", JStr "game");
     ("sort_order", JStr "desc")] in
  let params :=
    if truthy blockchain then params ++ [("blockchain", blockchain)] else params in
  fetch self [Lit base_url; Lit "/metrics"] params.

Definition get_nft_gaming_metrics_by_contract (self : t)
    (contract_address blockchain time_range limit offset : json) : AM json :=
  fetch self [Lit base_url; Lit "/contract/metrics"]
        [("blockchain", blockchain); ("contract_address", contract_address);
         ("time_range", time_range); ("offset", offset); ("limit", limit);
         ("sort_by", JStr "total_users"); ("sort_order", JStr "desc")].

Section Lowercase.

(** [str.lower], a builtin of Python. *)
Variable lower : string -> string.

(** [game.lower()]: an [AttributeError] when [game] is no string. *)
Definition game_lower (game : json) : result string :=
  match game with
  | JStr text => inr (lower text)
  | _ =>
      inl (Exc OtherException
             ("'" ++ type_name game ++ "' object has no attribute 'lower'"))
  end.

Definition get_nft_gaming_metrics_by_game (self : t)
    (game blockchain time_range limit offset : json) : AM json :=
  game_formatted <- lift (game_lower game) ;;
  fetch self [Lit base_url; Lit "/collection/metrics"]
        [("blockchain", blockchain); ("game", JStr game_formatted);
         ("time_range", time_range); ("offset", offset); ("limit", limit);
         ("sort_by", JStr "total_users"); ("sort_order", JStr "desc")].

Definition execute_function_call (self : t) (function_name : string)
    (arguments : json) : AM json :=
  emit (AgExecute function_name arguments) ;;;
  if function_name =? "get_game_contracts_info" then
    kw <- lift (as_kwargs "get_game_contracts_info"
                  ["limit"; "offset"; "blockchain"] arguments) ;;
    limit <- lift (kwarg "get_game_contracts_info" "limit" (Some (JNum 30)) kw) ;;
    offset <- lift (kwarg "get_game_contracts_info" "offset" (Some (JNum 0)) kw) ;;
    blockchain <-
      lift (kwarg "get_game_contracts_info" "blockchain" (Some JNull) kw) ;;
    get_game_contracts_info self limit offset blockchain
  else if function_name =? "get_nft_gaming_metrics_by_contract" then
    kw <- lift (as_kwargs "get_nft_gaming_metrics_by_contract"
                  ["contract_address"; "blockchain"; "time_range"; "limit"; "offset"]
                  arguments) ;;
    contract_address <-
      lift (kwarg "get_nft_gaming_metrics_by_contract" "contract_address" None kw) ;;
    blockchain <-
      lift (kwarg "get_nft_gaming_metrics_by_contract" "blockchain"
              (Some (JStr "ethereum")) kw) ;;
    time_range <-
      lift (kwarg "get_nft_gaming_metrics_by_contract" "time_range"
              (Some (JStr "24h")) kw) ;;
    limit <-
      lift (kwarg "get_nft_gaming_metrics_by_contract" "limit" (Some (JNum 30)) kw) ;;
    offset <-
      lift (kwarg "get_nft_gaming_metrics_by_contract" "offset" (Some (JNum 0)) kw) ;;
    get_nft_gaming_metrics_by_contract self contract_address blockchain time_range
      limit offset
  else if function_name =? "get_nft_gaming_metrics_by_game" then
    kw <- lift (as_kwargs "get_nft_gaming_metrics_by_game"
                  ["game"; "blockchain"; "time_range"; "limit"; "offset"]
                  arguments) ;;
    game <- lift (kwarg "get_nft_gaming_metrics_by_game" "game" None kw) ;;
    blockchain <-
      lift (kwarg "get_nft_gaming_metrics_by_game" "blockchain"
              (Some (JStr "ethereum")) kw) ;;
    time_range <-
      lift (kwarg "get_nft_gaming_metrics_by_game" "time_range"
              (Some (JStr "24h")) kw) ;;
    limit <-
      lift (kwarg "get_nft_gaming_metrics_by_game" "limit" (Some (JNum 30)) kw) ;;
    offset <-
      lift (kwarg "get_nft_gaming_metrics_by_game" "offset" (Some (JNum 0)) kw) ;;
    get_nft_gaming_metrics_by_game self game blockchain time_range limit offset
  else
    ret (JObj [("error", JStr ("Unknown function: " ++ function_name))]).

End Lowercase.

End NFTGamingAgent.

(* ================================================================== *)
(** ** Vocabulary of the further properties *)
(* ================================================================== *)

Module Observations.

Import NFTOrchestrator.

(** The part of the body of the agent's loop that can raise: parsing the
    arguments of a request and dispatching it. *)
Definition dispatch_step (self : NFTBrandAgent.t) (tc : tool_call) : AM json :=
  function_args <- json_loads (tc_arguments tc) ;;
  NFTBrandAgent.execute_function_call self (tc_name tc) function_args.

(** The same part of the orchestrator's loop. *)
Definition routing_step (self : NFTOrchestrator.t) (tc : tool_call) : OM json :=
  function_args <- json_loads (tc_arguments tc) ;;
  execute_routing_call self (tc_name tc) function_args.

(** What [chat] returns for an exception raised inside it. *)
Definition error_text (e : exc) : option string :=
  Some ("An error occurred: " ++ exc_str e)%string.

(** The exception of [len(None)]. *)
Definition no_len : exc :=
  Exc TypeError "object of type 'NoneType' has no len()".

(** A GET of the agent [self]: sent under the base URL of the brand
    API, with the agent's key in the headers. *)
Definition addressed_by (self : NFTBrandAgent.t) (e : agent_event) : Prop :=
  match e with
  | AgGet req =>
      hr_headers req = NFTBrandAgent.headers self /\
      exists rest, hr_url req = Lit NFTBrandAgent.base_url :: rest
  | _ => True
  end.

(** Every key of [kw] is one of [params]. *)
Definition keys_among (params : list string) (kw : dict) : bool :=
  forallb (fun kv => existsb (String.eqb (fst kv)) params) kw.

(** The agent object that a label stands for. *)
Definition agent_of (self : NFTOrchestrator.t) (a : agent_id) : agent_chat :=
  match a with
  | gaming => gaming_agent self
  | price_estimation => price_agent self
  | brand => brand_agent self
  | defi => defi_agent self
  | fungible => fungible_agent self
  | wallet => wallet_agent self
  | token => token_agent self
  | portfolio => portfolio_agent self
  end.

(** The words that open the error message of an agent's outcome. *)
Definition error_prefix_of (a : agent_id) : string :=
  match a with
  | gaming => "Gaming agent error: "
  | price_estimation => "Price agent error: "
  | brand => "Brand agent error: "
  | defi => "DeFi agent error: "
  | fungible => "Fungible token agent error: "
  | wallet => "Wallet analytics agent error: "
  | token => "Token analytics agent error: "
  | portfolio => "Portfolio analysis agent error: "
  end.

(** The number of decision calls of the orchestrator in a log. *)
Definition routing_decisions (l : list event) : nat :=
  length (filter is_routing_decide l).

(** The labels that [agent_used] can take. *)
Definition labels : list string :=
  ["gaming"; "price_estimation"; "brand"; "defi"; "fungible"; "wallet";
   "token"; "portfolio"; "multiple"; "unknown"; "error"].

(** A gaming agent as the orchestrator builds it. *)
Definition gaming_agent : NFTGamingAgent.t := NFTGamingAgent.Agent "api-key" true.

(** [str.lower] on ASCII text. *)
Definition lower_letter (c : ascii) : ascii :=
  let n := Ascii.nat_of_ascii c in
  if (65 <=? n)%nat && (n <=? 90)%nat then Ascii.ascii_of_nat (n + 32) else c.

Fixpoint lower_ascii (text : string) : string :=
  match text with
  | EmptyString => EmptyString
  | String c rest => String (lower_letter c) (lower_ascii rest)
  end.

(** A constructor of the client that returns. *)
Definition client_constructed : Construction.openai := fun _ => inr tt.

(** The environment of a [.env] file that sets both keys. *)
Definition dotenv : Construction.environ :=
  fun name =>
    if name =? "OPENAI_API_KEY" then Some "sk-test"
    else if name =? "UNLEASH_NFTS_API_KEY" then Some "api-key"
    else None.

(** An environment that sets no key. *)
Definition no_keys : Construction.environ := fun _ => None.

End Observations.
Import Observations.

(* ================================================================== *)
(** ** Running the monad *)
(* ================================================================== *)

Section Running.

Context {E : Type}.

Lemma bind_inr {A B} (m : Mon E A) (k : A -> Mon E B) w s a s' :
  m w s = (inr a, s') -> bind m k w s = k a w s'.
Proof. unfold bind. intros ->. reflexivity. Qed.

Lemma bind_lift {A B} (r : result A) (k : A -> Mon E B) w s a :
  r = inr a -> bind (lift r) k w s = k a w s.
Proof. intros ->. reflexivity. Qed.

Lemma bind_lift_cases {A B} (r : result A) (k : A -> Mon E B) w s :
  bind (lift r) k w s = match r with inr a => k a w s | inl e => (inl e, s) end.
Proof. now destruct r. Qed.

Lemma bind_emit {B} (e : E) (k : unit -> Mon E B) w s :
  bind (emit e) k w s = k tt w (logged s [e]).
Proof. reflexivity. Qed.

Lemma events_of_appended {A} (m : Mon E A) w s evs :
  log (snd (m w s)) = log s ++ evs -> events_of m w s = evs.
Proof.
  unfold events_of. intros ->.
  rewrite skipn_app, skipn_all, Nat.sub_diag. reflexivity.
Qed.

End Running.

(* ================================================================== *)
(** ** Binding keyword arguments *)
(* ================================================================== *)

(** Decides the tests on names that are literals. *)
Ltac decide_names :=
  repeat match goal with
         | |- context [String.eqb ?a ?b] =>
             let v := eval vm_compute in (String.eqb a b) in
             progress change (String.eqb a b) with v
         end;
  cbv iota.

Section Keywords.

Lemma unexpected_keyword_none (props params : list string) (kw : dict) :
  (forall k, existsb (String.eqb k) props = true ->
             existsb (String.eqb k) params = true) ->
  forallb (fun kv => existsb (String.eqb (fst kv)) props) kw = true ->
  unexpected_keyword params kw = None.
Proof.
  intros Hsub. induction kw as [|[k v] kw IH]; simpl; intros H.
  - reflexivity.
  - apply andb_prop in H. destruct H as [Hk Hkw].
    rewrite (Hsub _ Hk). now apply IH.
Qed.

Lemma as_kwargs_conforming fname (props params : list string) (kw : dict) :
  (forall k, existsb (String.eqb k) props = true ->
             existsb (String.eqb k) params = true) ->
  forallb (fun kv => existsb (String.eqb (fst kv)) props) kw = true ->
  as_kwargs fname params (JObj kw) = inr kw.
Proof.
  intros Hsub H. unfold as_kwargs.
  now rewrite (unexpected_keyword_none props params kw Hsub H).
Qed.

Lemma kwarg_required fname p (kw : dict) :
  has_key p kw = true ->
  exists v, dict_get p kw = Some v /\ kwarg fname p None kw = inr v.
Proof.
  unfold has_key, kwarg. destruct (dict_get p kw) as [v|]; [|discriminate].
  intros _. now exists v.
Qed.

Lemma kwarg_optional fname p d (kw : dict) :
  kwarg fname p (Some d) kw =
    inr (match dict_get p kw with Some v => v | None => d end).
Proof. unfold kwarg. now destruct (dict_get p kw). Qed.

End Keywords.

(* ================================================================== *)
(** ** The agent: dispatcher and tool loop *)
(* ================================================================== *)

Module AgentProtocol.

Import NFTBrandAgent.

Lemma fetch_clean self url params w s :
  answers_cleanly self
    (collaborator w (http_calls s) (HttpRequest url (headers self) params)) ->
  fetch self url params w s =
    (inr (payload_or_failure
            (collaborator w (http_calls s) (HttpRequest url (headers self) params))),
     MkSt (ds_calls s) (S (http_calls s))
          (log s ++ [AgGet (HttpRequest url (headers self) params)])).
Proof.
  intros H.
  unfold fetch, try_except_request, bind, requests_get, when_verbose, lift, ret.
  destruct (collaborator w (http_calls s) (HttpRequest url (headers self) params))
    as [e|body]; simpl in *.
  - rewrite H. reflexivity.
  - destruct (verbose self); [rewrite (H eq_refl)|]; reflexivity.
Qed.

(** A name outside the registry fails each test of the dispatcher. *)
Lemma unregistered_name name :
  ~ In name registry ->
  (name =? "get_brand_details") = false /\
  (name =? "get_brand_metrics_by_contract") = false /\
  (name =? "get_brand_category_details") = false.
Proof.
  intros H. repeat split; apply String.eqb_neq; intros ->; apply H; simpl; auto.
Qed.

Lemma execute_unregistered self name arguments w s :
  ~ In name registry ->
  execute_function_call self name arguments w s =
    (inr (unknown_function name), logged s [AgExecute name arguments]).
Proof.
  intros H. destruct (unregistered_name name H) as (H1 & H2 & H3).
  unfold execute_function_call. rewrite bind_emit, H1, H2, H3. reflexivity.
Qed.

(** A registered name with arguments that follow its schema: the handler
    is entered, sends one GET, and returns the body or the failure
    record. *)
Lemma execute_conforming self td arguments w s :
  In td tools ->
  conforms td arguments = true ->
  (forall req, answers_cleanly self (collaborator w (http_calls s) req)) ->
  exists req,
    execute_function_call self (td_name td) arguments w s =
      (inr (payload_or_failure (collaborator w (http_calls s) req)),
       MkSt (ds_calls s) (S (http_calls s))
            (log s ++ [AgExecute (td_name td) arguments; AgGet req])).
Proof.
  intros Htd Hc Hw.
  destruct arguments as [| | | |?|kw]; try discriminate Hc.
  simpl in Hc. apply andb_prop in Hc. destruct Hc as [Hkeys Hreq].
  simpl in Htd. destruct Htd as [<-|[<-|[<-|[]]]]; simpl in Hkeys, Hreq;
    unfold execute_function_call; rewrite bind_emit; cbn [td_name];
    decide_names.
  - rewrite (bind_lift _ _ _ _ kw)
      by (apply (as_kwargs_conforming _ ["brand"; "time_range"]); auto).
    apply andb_prop in Hreq. destruct Hreq as [Hb _].
    destruct (kwarg_required "get_brand_details" "brand" kw Hb) as (brand & _ & Eb).
    rewrite (bind_lift _ _ _ _ brand Eb).
    rewrite (bind_lift _ _ _ _ _ (kwarg_optional _ _ _ _)).
    unfold get_brand_details. eexists.
    rewrite fetch_clean by apply Hw. simpl. now rewrite <- app_assoc.
  - rewrite (bind_lift _ _ _ _ kw).
    2:{ apply (as_kwargs_conforming _ ["chain_id"; "contract_address"; "time_range"]);
        auto. intros k. simpl.
        destruct (k =? "chain_id"), (k =? "contract_address"), (k =? "time_range");
          auto. }
    apply andb_prop in Hreq. destruct Hreq as [Hb _].
    destruct (kwarg_required "get_brand_metrics_by_contract" "contract_address" kw Hb)
      as (address & _ & Eb).
    rewrite (bind_lift _ _ _ _ address Eb).
    rewrite (bind_lift _ _ _ _ _ (kwarg_optional _ _ _ _)).
    rewrite (bind_lift _ _ _ _ _ (kwarg_optional _ _ _ _)).
    unfold get_brand_metrics_by_contract. eexists.
    rewrite fetch_clean by apply Hw. simpl. now rewrite <- app_assoc.
  - rewrite (bind_lift _ _ _ _ kw)
      by (apply (as_kwargs_conforming _ ["category"; "limit"; "offset"]); auto).
    apply andb_prop in Hreq. destruct Hreq as [Hb _].
    destruct (kwarg_required "get_brand_category_details" "category" kw Hb)
      as (category & _ & Eb).
    rewrite (bind_lift _ _ _ _ category Eb).
    rewrite (bind_lift _ _ _ _ _ (kwarg_optional _ _ _ _)).
    rewrite (bind_lift _ _ _ _ _ (kwarg_optional _ _ _ _)).
    unfold get_brand_category_details. eexists.
    rewrite fetch_clean by apply Hw. simpl. now rewrite <- app_assoc.
Qed.

Lemma extends_quietly_refl s : extends_quietly s s.
Proof. split; [reflexivity|]. exists []. now rewrite app_nil_r. Qed.

Lemma extends_quietly_trans s1 s2 s3 :
  extends_quietly s1 s2 -> extends_quietly s2 s3 -> extends_quietly s1 s3.
Proof.
  intros [H1 (l1 & E1 & Q1)] [H2 (l2 & E2 & Q2)]. split; [congruence|].
  exists (l1 ++ l2). rewrite E2, E1, <- app_assoc. split; [reflexivity|].
  now rewrite existsb_app, Q1, Q2.
Qed.

Lemma extends_quietly_logged s evs :
  existsb is_decide evs = false -> extends_quietly s (logged s evs).
Proof. intros H. split; [reflexivity|]. now exists evs. Qed.

Lemma fetch_state self url params w s :
  snd (fetch self url params w s) =
    MkSt (ds_calls s) (S (http_calls s))
         (log s ++ [AgGet (HttpRequest url (headers self) params)]).
Proof.
  unfold fetch, try_except_request, bind, requests_get, when_verbose, lift, ret.
  destruct (collaborator w (http_calls s) (HttpRequest url (headers self) params))
    as [e|body]; simpl.
  - now destruct (is_request_exception e).
  - destruct (verbose self); [destruct (report_items body) as [e|[]]|]; simpl;
      try reflexivity.
    now destruct (is_request_exception e).
Qed.

Lemma fetch_quiet self url params w s :
  extends_quietly s (snd (fetch self url params w s)).
Proof.
  rewrite fetch_state. split; [reflexivity|]. now eexists.
Qed.

(** Whatever the name, the arguments and the world, the dispatcher calls
    the decision service not once. *)
Lemma execute_quiet self name arguments w s :
  extends_quietly s (snd (execute_function_call self name arguments w s)).
Proof.
  assert (Hs : extends_quietly s (logged s [AgExecute name arguments]))
    by now apply extends_quietly_logged.
  unfold execute_function_call. rewrite bind_emit.
  destruct (name =? "get_brand_details");
    [|destruct (name =? "get_brand_metrics_by_contract");
      [|destruct (name =? "get_brand_category_details")]];
    repeat (rewrite bind_lift_cases;
            match goal with
            | |- context [match ?r with inr _ => _ | inl _ => _ end] =>
                destruct r; [exact Hs|]
            end);
    try exact Hs;
    (eapply extends_quietly_trans; [exact Hs|apply fetch_quiet]).
Qed.

Lemma process_tool_calls_app self pre post messages w s :
  process_tool_calls self (pre ++ post) messages w s =
    bind (process_tool_calls self pre messages)
         (fun m => process_tool_calls self post m) w s.
Proof.
  revert messages s. induction pre as [|tc pre IH]; intros messages s.
  - reflexivity.
  - simpl. unfold bind in *.
    destruct (json_loads (tc_arguments tc) w s) as [[e|a] s1]; [reflexivity|].
    destruct (execute_function_call self (tc_name tc) a w s1) as [[e|v] s2];
      [reflexivity|].
    apply IH.
Qed.

(** A request whose arguments parse and whose dispatch returns is answered
    by one tool turn, and the loop goes on with the next request. *)
Lemma process_tool_calls_step self tc rest messages w s a v s1 :
  tc_arguments tc = Some a ->
  execute_function_call self (tc_name tc) a w s = (inr v, s1) ->
  process_tool_calls self (tc :: rest) messages w s =
    process_tool_calls self rest (messages ++ [MsgTool (tc_id tc) v]) w s1.
Proof.
  intros Ha He. simpl. rewrite Ha. simpl json_loads.
  unfold bind at 1. unfold ret at 1. now rewrite (bind_inr _ _ _ _ _ _ He).
Qed.

(** The loop calls the decision service not once, and when it returns
    the conversation has grown by the answers to the requests, nothing
    else. *)
Lemma process_tool_calls_shape self calls messages w s :
  extends_quietly s (snd (process_tool_calls self calls messages w s)) /\
  forall m, fst (process_tool_calls self calls messages w s) = inr m ->
            exists turns, m = messages ++ turns /\ answers calls turns.
Proof.
  revert messages s. induction calls as [|tc rest IH]; intros messages s.
  - simpl. split; [apply extends_quietly_refl|].
    intros m [= <-]. exists []. rewrite app_nil_r. split; [reflexivity|constructor].
  - simpl. unfold bind at 1 3.
    destruct (tc_arguments tc) as [a|]; simpl json_loads.
    2:{ simpl. split; [apply extends_quietly_refl|discriminate]. }
    unfold ret at 1 2. unfold bind.
    pose proof (execute_quiet self (tc_name tc) a w s) as Hq.
    destruct (execute_function_call self (tc_name tc) a w s) as [[e|v] s1];
      simpl in Hq.
    + simpl. split; [exact Hq|discriminate].
    + destruct (IH (messages ++ [MsgTool (tc_id tc) v]) s1) as [IH1 IH2].
      split; [eapply extends_quietly_trans; eauto|].
      intros m Hm. destruct (IH2 m Hm) as (turns & -> & Hans).
      exists (MsgTool (tc_id tc) v :: turns). rewrite <- app_assoc.
      split; [reflexivity|]. constructor; [now exists v|exact Hans].
Qed.

(** Once the loop has returned, [chat] sends the extended conversation to
    the decision service, whatever comes of it afterwards. *)
Lemma chat_log self q w s :
  log (snd (chat self q w s)) =
    match decision_service w (ds_calls s) (round1 q) with
    | inl _ => log (decided s (round1 q))
    | inr response =>
        match tool_calls response with
        | [] => log (decided s (round1 q))
        | _ :: _ =>
            let r := process_tool_calls self (tool_calls response)
                       (initial_messages q ++ [MsgAssistant response]) w
                       (decided s (round1 q)) in
            log (snd r) ++
              match fst r with
              | inr m => [AgDecide (DsRequest m None)]
              | inl _ => []
              end
        end
    end.
Proof.
  unfold chat, try_except, bind at 1, completions_create at 1.
  fold (round1 q). fold (decided s (round1 q)).
  destruct (decision_service w (ds_calls s) (round1 q)) as [e|response];
    [reflexivity|].
  destruct (tool_calls response) as [|tc rest] eqn:Etc.
  - unfold bind, when_verbose, report_length, lift, ret.
    destruct (verbose self); [|reflexivity].
    now destruct (len (of_optional (content response))).
  - unfold bind at 1.
    destruct (process_tool_calls self (tc :: rest)
                (initial_messages q ++ [MsgAssistant response]) w
                (decided s (round1 q))) as [[e|m] s2]; simpl.
    + now rewrite app_nil_r.
    + unfold bind, completions_create, when_verbose, report_length, lift, ret.
      destruct (decision_service w (ds_calls s2) (DsRequest m None)) as [e|final];
        [reflexivity|].
      destruct (verbose self); [|reflexivity].
      now destruct (len (of_optional (content final))).
Qed.

(** C2, as the code has it.  For every operation of the registry and every
    argument mapping that follows its declared schema (a dict, only
    declared parameters, every required one present),
    [execute_function_call] returns a result and raises nothing: the body
    of the collaborator's answer, or the failure record
    [{"error": "API request failed: ..."}] -- provided the GET raises at
    most an exception of the [RequestException] family and, in verbose
    mode, the ["data"] entry of the body has a length.  The dispatcher
    sends exactly one GET. *)
Theorem execute_function_call_returns_on_conforming_arguments
    self td arguments w s :
  In td tools ->
  conforms td arguments = true ->
  (forall req, answers_cleanly self (collaborator w (http_calls s) req)) ->
  exists req,
    fst (execute_function_call self (td_name td) arguments w s) =
      inr (payload_or_failure (collaborator w (http_calls s) req)) /\
    events_of (execute_function_call self (td_name td) arguments) w s =
      [AgExecute (td_name td) arguments; AgGet req].
Proof.
  intros Htd Hc Hw.
  destruct (execute_conforming self td arguments w s Htd Hc Hw) as (req & E).
  exists req. split; [now rewrite E|].
  apply events_of_appended. now rewrite E.
Qed.

(** C2 refuted as stated, twice.  [get_brand_details] is in the registry.
    When the decision service sends it the empty mapping, the call
    [self.get_brand_details()] raises a [TypeError], and
    [execute_function_call] lets it through.  When the arguments are in
    order and the collaborator answers [{"data": null}], the verbose report
    [len(result.get('data', []))] raises a [TypeError] inside the handler,
    whose [except] clause names [RequestException] only. *)
Lemma execute_function_call_lets_faults_through :
  In "get_brand_details" registry /\
  (exists e,
      execute_function_call Scenarios.brand_agent "get_brand_details" (JObj [])
          Scenarios.silent start =
        (inl e, logged start [AgExecute "get_brand_details" (JObj [])]) /\
      exc_class_of e = TypeError) /\
  (exists e,
      fst (execute_function_call Scenarios.brand_agent "get_brand_details"
             (JObj [("brand", JStr "StarBucks")])
             (scripted [] [inr (JObj [("data", JNull)])]) start) = inl e /\
      exc_class_of e = TypeError).
Proof.
  split; [simpl; auto|]. split; eexists; split; reflexivity.
Qed.

Lemma execute_function_call_returns_on_starbucks :
  exists req,
    fst (execute_function_call Scenarios.brand_agent
           (td_name (ToolDef "get_brand_details" ["brand"; "time_range"] ["brand"]))
           (JObj [("brand", JStr "StarBucks")]) Scenarios.first_times_out start) =
      inr (payload_or_failure (collaborator Scenarios.first_times_out 0 req)) /\
    events_of (execute_function_call Scenarios.brand_agent
                 (td_name (ToolDef "get_brand_details" ["brand"; "time_range"] ["brand"]))
                 (JObj [("brand", JStr "StarBucks")]))
              Scenarios.first_times_out start =
      [AgExecute
         (td_name (ToolDef "get_brand_details" ["brand"; "time_range"] ["brand"]))
         (JObj [("brand", JStr "StarBucks")]);
       AgGet req].
Proof.
  apply (execute_function_call_returns_on_conforming_arguments
           Scenarios.brand_agent
           (ToolDef "get_brand_details" ["brand"; "time_range"] ["brand"])
           (JObj [("brand", JStr "StarBucks")]) Scenarios.first_times_out start).
  - simpl. auto.
  - reflexivity.
  - intros req. reflexivity.
Defined.

(** C4.  A name outside the registry makes the dispatcher return the
    failure record [{"error": "Unknown function: <name>"}], in every world
    and every state, with no GET sent and nothing raised.  And in a run
    whose batch holds a request for that name, with the requests before it
    and after it processed without a fault, the failure record is the tool
    turn of that request and the round-2 call to the decision service is
    made with the conversation that holds it. *)
Theorem unknown_operation_is_reported_and_synthesis_reached
    self name arguments :
  ~ In name registry ->
  (forall w s,
      execute_function_call self name arguments w s =
        (inr (unknown_function name), logged s [AgExecute name arguments])) /\
  (forall q w s response pre tc post m1 s1 m2 s2,
      tc_name tc = name ->
      tc_arguments tc = Some arguments ->
      decision_service w (ds_calls s) (round1 q) = inr response ->
      tool_calls response = pre ++ tc :: post ->
      process_tool_calls self pre
        (initial_messages q ++ [MsgAssistant response]) w
        (decided s (round1 q)) = (inr m1, s1) ->
      process_tool_calls self post
        (m1 ++ [MsgTool (tc_id tc) (unknown_function name)]) w
        (logged s1 [AgExecute name arguments]) = (inr m2, s2) ->
      In (MsgTool (tc_id tc) (unknown_function name)) m2 /\
      In (AgDecide (DsRequest m2 None)) (events_of (chat self q) w s)).
Proof.
  intros Hname. split; [intros w s; now apply execute_unregistered|].
  intros q w s response pre tc post m1 s1 m2 s2 Htc Hargs Hds Hcalls Hpre Hpost.
  assert (Hloop :
            process_tool_calls self (pre ++ tc :: post)
              (initial_messages q ++ [MsgAssistant response]) w
              (decided s (round1 q)) = (inr m2, s2)).
  { rewrite process_tool_calls_app, (bind_inr _ _ _ _ _ _ Hpre).
    rewrite (process_tool_calls_step self tc post m1 w s1 arguments
               (unknown_function name) (logged s1 [AgExecute name arguments]) Hargs)
      by (rewrite Htc; now apply execute_unregistered).
    exact Hpost. }
  split.
  - destruct (process_tool_calls_shape self post
                (m1 ++ [MsgTool (tc_id tc) (unknown_function name)]) w
                (logged s1 [AgExecute name arguments])) as [_ Hturns].
    rewrite Hpost in Hturns. destruct (Hturns m2 eq_refl) as (turns & -> & _).
    apply in_or_app. left. apply in_or_app. right. simpl. auto.
  - destruct (process_tool_calls_shape self (pre ++ tc :: post)
                (initial_messages q ++ [MsgAssistant response]) w
                (decided s (round1 q))) as [[_ (evs & Hevs & _)] _].
    rewrite Hloop in Hevs. simpl in Hevs.
    rewrite (events_of_appended (chat self q) w s
               ([AgDecide (round1 q)] ++ evs ++ [AgDecide (DsRequest m2 None)])).
    + apply in_or_app. right. apply in_or_app. right. simpl. auto.
    + rewrite chat_log, Hds.
      destruct (tool_calls response) as [|x l] eqn:E;
        [now destruct pre|].
      cbv zeta. rewrite Hcalls, Hloop. simpl. rewrite Hevs.
      now rewrite <- !app_assoc.
Qed.

Lemma unknown_operation_between_two_known_ones :
  In (MsgTool "call_3" (unknown_function "get_weather"))
     (initial_messages (JStr "Compare Starbucks and Nike") ++
      [MsgAssistant
         (Completion None
            [Scenarios.starbucks_call; Scenarios.weather_call; Scenarios.nike_call]);
       MsgTool "call_1" Scenarios.brand_metrics;
       MsgTool "call_3" (unknown_function "get_weather");
       MsgTool "call_2" Scenarios.brand_metrics]) /\
  In (AgDecide
        (DsRequest
           (initial_messages (JStr "Compare Starbucks and Nike") ++
            [MsgAssistant
               (Completion None
                  [Scenarios.starbucks_call; Scenarios.weather_call;
                   Scenarios.nike_call]);
             MsgTool "call_1" Scenarios.brand_metrics;
             MsgTool "call_3" (unknown_function "get_weather");
             MsgTool "call_2" Scenarios.brand_metrics]) None))
     (events_of (chat Scenarios.brand_agent (JStr "Compare Starbucks and Nike"))
                Scenarios.unknown_between start).
Proof.
  refine (proj2 (unknown_operation_is_reported_and_synthesis_reached
                   Scenarios.brand_agent "get_weather"
                   (JObj [("city", JStr "Seattle")]) _)
            (JStr "Compare Starbucks and Nike") Scenarios.unknown_between start
            (Completion None
               [Scenarios.starbucks_call; Scenarios.weather_call; Scenarios.nike_call])
            [Scenarios.starbucks_call] Scenarios.weather_call [Scenarios.nike_call]
            _ _ _ _ eq_refl eq_refl eq_refl eq_refl eq_refl eq_refl).
  simpl. intros [H|[H|[H|[]]]]; discriminate H.
Defined.

(** C4 refuted as stated.  The decision service asks for [get_weather],
    which is not in the registry, and then for [get_brand_details] with the
    empty mapping.  The unknown operation is reported by its failure
    record, nothing raised; the request after it raises a [TypeError]
    through the dispatcher, and the [except Exception] of [chat] ends the
    run with the text of that error.  The decision service has been called
    once: the run holds no round-2 call, in a world that would have
    answered one. *)
Lemma unknown_operation_before_a_fault_reaches_no_synthesis :
  ~ In "get_weather" registry /\
  execute_function_call Scenarios.brand_agent "get_weather"
      (JObj [("city", JStr "Seattle")]) Scenarios.unknown_then_brandless
      (decided start (round1 (JStr "What is the weather?"))) =
    (inr (unknown_function "get_weather"),
     logged (decided start (round1 (JStr "What is the weather?")))
       [AgExecute "get_weather" (JObj [("city", JStr "Seattle")])]) /\
  decision_service Scenarios.unknown_then_brandless 1
      (DsRequest [] None) =
    inr (Completion (Some "There is no weather operation.") []) /\
  (exists e,
      exc_class_of e = TypeError /\
      fst (chat Scenarios.brand_agent (JStr "What is the weather?")
             Scenarios.unknown_then_brandless start) = inr (error_text e)) /\
  events_of (chat Scenarios.brand_agent (JStr "What is the weather?"))
            Scenarios.unknown_then_brandless start =
    [AgDecide (round1 (JStr "What is the weather?"));
     AgExecute "get_weather" (JObj [("city", JStr "Seattle")]);
     AgExecute "get_brand_details" (JObj [])] /\
  ds_calls (snd (chat Scenarios.brand_agent (JStr "What is the weather?")
                   Scenarios.unknown_then_brandless start)) = 1 /\
  (forall messages,
      ~ In (AgDecide (DsRequest messages None))
           (events_of (chat Scenarios.brand_agent (JStr "What is the weather?"))
                      Scenarios.unknown_then_brandless start)).
Proof.
  split; [simpl; intros [H|[H|[H|[]]]]; discriminate H|].
  split; [reflexivity|]. split; [reflexivity|].
  split.
  { exists (Exc TypeError
              "get_brand_details() missing 1 required positional argument: 'brand'").
    split; reflexivity. }
  assert (Hlog :
            events_of (chat Scenarios.brand_agent (JStr "What is the weather?"))
                      Scenarios.unknown_then_brandless start =
              [AgDecide (round1 (JStr "What is the weather?"));
               AgExecute "get_weather" (JObj [("city", JStr "Seattle")]);
               AgExecute "get_brand_details" (JObj [])])
    by reflexivity.
  split; [exact Hlog|]. split; [reflexivity|].
  intros messages. rewrite Hlog.
  simpl. intros [H|[H|[H|[]]]]; discriminate H.
Qed.

(** A transport failure in one request does not stop the loop: the
    failure record is the tool turn of that request, and the loop goes on
    with the requests that follow. *)
Lemma transport_failure_does_not_abort self td tc a rest messages w s e :
  In td tools -> td_name td = tc_name tc ->
  tc_arguments tc = Some a -> conforms td a = true ->
  (forall req, collaborator w (http_calls s) req = inl e) ->
  is_request_exception e = true ->
  exists req,
    process_tool_calls self (tc :: rest) messages w s =
      process_tool_calls self rest
        (messages ++ [MsgTool (tc_id tc) (api_failure e)]) w
        (MkSt (ds_calls s) (S (http_calls s))
              (log s ++ [AgExecute (tc_name tc) a; AgGet req])).
Proof.
  intros Htd Hname Ha Hc Hw He.
  destruct (execute_conforming self td a w s Htd Hc) as (req & E).
  { intros req. rewrite Hw. exact He. }
  exists req. rewrite Hw, Hname in E.
  now rewrite (process_tool_calls_step self tc rest messages w s a _ _ Ha E).
Qed.

(** C5.  Two requests in one round, each for a registered operation with
    arguments that follow its schema; the GET of the first raises a
    transport error, the GET of the second is answered.  The run is then:
    the round-1 call, the first dispatch and its GET, the second dispatch
    and its GET, and the round-2 call, whose conversation ends with the
    failure record of the first request and the body of the second, in
    the order of the requests. *)
Theorem partial_failure_keeps_both_results_and_synthesizes
    self q w s response tc1 tc2 td1 td2 a1 a2 e body :
  decision_service w (ds_calls s) (round1 q) = inr response ->
  tool_calls response = [tc1; tc2] ->
  In td1 tools -> td_name td1 = tc_name tc1 ->
  tc_arguments tc1 = Some a1 -> conforms td1 a1 = true ->
  In td2 tools -> td_name td2 = tc_name tc2 ->
  tc_arguments tc2 = Some a2 -> conforms td2 a2 = true ->
  (forall req, collaborator w (http_calls s) req = inl e) ->
  is_request_exception e = true ->
  (forall req, collaborator w (S (http_calls s)) req = inr body) ->
  (verbose self = true -> report_items body = inr tt) ->
  exists get1 get2,
    events_of (chat self q) w s =
      [AgDecide (round1 q);
       AgExecute (tc_name tc1) a1; AgGet get1;
       AgExecute (tc_name tc2) a2; AgGet get2;
       AgDecide
         (DsRequest
            (initial_messages q ++
             [MsgAssistant response;
              MsgTool (tc_id tc1) (api_failure e);
              MsgTool (tc_id tc2) body])
            None)].
Proof.
  intros Hds Hcalls Htd1 Hn1 Ha1 Hc1 Htd2 Hn2 Ha2 Hc2 Hw1 He Hw2 Hbody.
  destruct (transport_failure_does_not_abort self td1 tc1 a1 [tc2]
              (initial_messages q ++ [MsgAssistant response]) w
              (decided s (round1 q)) e Htd1 Hn1 Ha1 Hc1 Hw1 He) as (get1 & E1).
  set (s1 := MkSt (ds_calls (decided s (round1 q)))
                  (S (http_calls (decided s (round1 q))))
                  (log (decided s (round1 q)) ++
                   [AgExecute (tc_name tc1) a1; AgGet get1])) in E1.
  destruct (execute_conforming self td2 a2 w s1 Htd2 Hc2) as (get2 & E2).
  { intros req. simpl. rewrite Hw2. exact Hbody. }
  simpl http_calls in E2. rewrite Hw2, Hn2 in E2. simpl payload_or_failure in E2.
  exists get1, get2. apply events_of_appended.
  rewrite chat_log, Hds, Hcalls. cbv zeta. rewrite E1.
  rewrite (process_tool_calls_step self tc2 [] _ w s1 a2 _ _ Ha2 E2).
  simpl. rewrite <- !app_assoc. reflexivity.
Qed.

Lemma partial_failure_on_starbucks_then_nike :
  exists get1 get2,
    events_of (chat Scenarios.brand_agent (JStr "Compare Starbucks and Nike"))
              Scenarios.first_times_out start =
      [AgDecide (round1 (JStr "Compare Starbucks and Nike"));
       AgExecute (tc_name Scenarios.starbucks_call)
                 (JObj [("brand", JStr "StarBucks")]);
       AgGet get1;
       AgExecute (tc_name Scenarios.nike_call)
                 (JObj [("brand", JStr "Nike"); ("time_range", JStr "7d")]);
       AgGet get2;
       AgDecide
         (DsRequest
            (initial_messages (JStr "Compare Starbucks and Nike") ++
             [MsgAssistant
                (Completion None [Scenarios.starbucks_call; Scenarios.nike_call]);
              MsgTool (tc_id Scenarios.starbucks_call)
                      (api_failure Scenarios.timeout);
              MsgTool (tc_id Scenarios.nike_call) Scenarios.brand_metrics])
            None)].
Proof.
  apply (partial_failure_keeps_both_results_and_synthesizes
           Scenarios.brand_agent (JStr "Compare Starbucks and Nike")
           Scenarios.first_times_out start
           (Completion None [Scenarios.starbucks_call; Scenarios.nike_call])
           Scenarios.starbucks_call Scenarios.nike_call
           (ToolDef "get_brand_details" ["brand"; "time_range"] ["brand"])
           (ToolDef "get_brand_details" ["brand"; "time_range"] ["brand"])
           (JObj [("brand", JStr "StarBucks")])
           (JObj [("brand", JStr "Nike"); ("time_range", JStr "7d")])
           Scenarios.timeout Scenarios.brand_metrics).
  - reflexivity.
  - reflexivity.
  - simpl. auto.
  - reflexivity.
  - reflexivity.
  - reflexivity.
  - simpl. auto.
  - reflexivity.
  - reflexivity.
  - reflexivity.
  - intros req. reflexivity.
  - reflexivity.
  - intros req. reflexivity.
  - intros _. reflexivity.
Defined.

Lemma quiet_events_hold_no_decide evs req :
  existsb is_decide evs = false -> ~ In (AgDecide req) evs.
Proof.
  intros H Hin. assert (existsb is_decide evs = true); [|congruence].
  apply existsb_exists. now exists (AgDecide req).
Qed.

(** The events of a run of [chat]: the round-1 call, then events among
    which the only decision call there can be is the round-2 call, sent
    with the round-1 conversation, the assistant's message and one tool
    turn per request. *)
Lemma chat_events self q w s :
  exists evs,
    events_of (chat self q) w s = AgDecide (round1 q) :: evs /\
    forall req,
      In (AgDecide req) evs ->
      exists response turns,
        decision_service w (ds_calls s) (round1 q) = inr response /\
        req = DsRequest (initial_messages q ++ MsgAssistant response :: turns) None /\
        answers (tool_calls response) turns.
Proof.
  assert (Hone : forall l, log s ++ [AgDecide (round1 q)] ++ l =
                           log (decided s (round1 q)) ++ l).
  { intros l. simpl. now rewrite <- app_assoc. }
  destruct (decision_service w (ds_calls s) (round1 q)) as [e|response] eqn:Hds.
  - exists []. split; [|intros req []].
    apply events_of_appended. now rewrite chat_log, Hds.
  - destruct (tool_calls response) as [|tc rest] eqn:Etc.
    + exists []. split; [|intros req []].
      apply events_of_appended. now rewrite chat_log, Hds, Etc.
    + destruct (process_tool_calls_shape self (tc :: rest)
                  (initial_messages q ++ [MsgAssistant response]) w
                  (decided s (round1 q))) as [[_ (evs & Hevs & Hq)] Hturns].
      destruct (process_tool_calls self (tc :: rest)
                  (initial_messages q ++ [MsgAssistant response]) w
                  (decided s (round1 q))) as [[e|m] s2] eqn:Hloop;
        simpl in Hevs, Hturns.
      * exists evs. split.
        -- apply events_of_appended.
           rewrite chat_log, Hds, Etc. cbv zeta. rewrite Hloop. simpl fst.
           simpl snd. rewrite Hevs, app_nil_r. simpl. now rewrite <- app_assoc.
        -- intros req Hin. now apply quiet_events_hold_no_decide in Hin.
      * exists (evs ++ [AgDecide (DsRequest m None)]). split.
        -- apply events_of_appended.
           rewrite chat_log, Hds, Etc. cbv zeta. rewrite Hloop. simpl fst.
           simpl snd. rewrite Hevs. simpl. now rewrite <- !app_assoc.
        -- intros req Hin. apply in_app_or in Hin. destruct Hin as [Hin|Hin];
             [now apply quiet_events_hold_no_decide in Hin|].
           destruct Hin as [[= <-]|[]].
           destruct (Hturns m eq_refl) as (turns & -> & Hans).
           exists response, turns. split; [reflexivity|].
           split; [reflexivity|now rewrite Etc].
Qed.

End AgentProtocol.

(* ================================================================== *)
(** ** The orchestrator: agent calls and routing *)
(* ================================================================== *)

Module Routing.

Import NFTOrchestrator.

Lemma call_agent_run a agent q w s :
  call_agent a agent q w s =
    (fst (agent_run agent q w s), after_agent a q s (agent_run agent q w s)).
Proof.
  unfold call_agent, after_agent, agent_run. rewrite bind_emit.
  unfold bind, in_agent, emit, ret. simpl.
  destruct (agent q w (MkSt (ds_calls s) (http_calls s) [])) as [[e|v] s1]; simpl.
  - now rewrite <- app_assoc, app_nil_r.
  - now rewrite <- !app_assoc.
Qed.

Lemma route_to_run a error_prefix agent q reason w s :
  route_to a error_prefix agent q reason w s =
    (inr (agent_outcome a error_prefix q reason (fst (agent_run agent q w s))),
     after_agent a q s (agent_run agent q w s)).
Proof.
  unfold route_to, try_except, bind. rewrite call_agent_run.
  now destruct (fst (agent_run agent q w s)).
Qed.

(** The brand agent, like every agent of [src], returns from [chat]
    whatever happens inside. *)
Lemma brand_chat_returns self q w s :
  exists text, fst (NFTBrandAgent.chat self q w s) = inr text.
Proof.
  unfold NFTBrandAgent.chat, try_except.
  match goal with
  | |- context [match ?m w s with _ => _ end] => destruct (m w s) as [[e|v] s1]
  end; simpl; eauto.
Qed.

(** The end-to-end scenario of the brand agent: the query is routed to
    the brand agent, which calls [get_brand_details] once; one agent run,
    and the text of the final round is the answer. *)
Example starbucks_end_to_end :
  fst (chat Scenarios.orchestrator "Get brand details for Starbucks"
            Scenarios.starbucks_routed start) =
    inr (Some "Starbucks has 42 holders.") /\
  agent_invocations
    (events_of (chat Scenarios.orchestrator "Get brand details for Starbucks")
               Scenarios.starbucks_routed start) = 1 /\
  filter (fun e => match e with EvAgent _ (AgExecute _ _) => true | _ => false end)
    (events_of (chat Scenarios.orchestrator "Get brand details for Starbucks")
               Scenarios.starbucks_routed start) =
    [EvAgent brand
       (AgExecute "get_brand_details" (JObj [("brand", JStr "StarBucks")]))].
Proof. repeat split; reflexivity. Qed.

(** C3.  When the routing round answers with a text and no operation,
    [chat] returns that text, and the run consists of the routing call
    alone: no routing function, no agent, no dispatcher, no GET. *)
Theorem direct_answer_is_returned_without_any_invocation self q w s text :
  decision_service w (ds_calls s) (routing_round q) =
    inr (Completion (Some text) []) ->
  chat self q w s = (inr (Some text), routed s (routing_round q)) /\
  events_of (chat self q) w s = [EvDecide (routing_round q)].
Proof.
  intros H.
  assert (E : chat self q w s = (inr (Some text), routed s (routing_round q))).
  { unfold chat, try_except, bind at 1, completions_create.
    fold (routing_round q). rewrite H. simpl.
    unfold bind, when_verbose, report_length, lift, ret.
    now destruct (verbose self). }
  split; [exact E|]. apply events_of_appended. now rewrite E.
Qed.

Lemma direct_answer_on_greeting :
  chat Scenarios.orchestrator "Hello"
       (scripted [inr (Completion (Some "Hello! Ask me about NFT brands.") [])] [])
       start =
    (inr (Some "Hello! Ask me about NFT brands."),
     routed start (routing_round "Hello")) /\
  events_of (chat Scenarios.orchestrator "Hello")
            (scripted [inr (Completion (Some "Hello! Ask me about NFT brands.") [])] [])
            start =
    [EvDecide (routing_round "Hello")].
Proof.
  apply (direct_answer_is_returned_without_any_invocation
           Scenarios.orchestrator "Hello"
           (scripted [inr (Completion (Some "Hello! Ask me about NFT brands.") [])] [])
           start "Hello! Ask me about NFT brands.").
  reflexivity.
Defined.

Lemma route_to_both_agents_run self gq pq reason w s :
  snd (route_to_both_agents self gq pq reason w s) =
    match fst (agent_run (gaming_agent self) gq w s) with
    | inl _ => after_agent gaming gq s (agent_run (gaming_agent self) gq w s)
    | inr _ =>
        after_agent price_estimation pq
          (logged (after_agent gaming gq s (agent_run (gaming_agent self) gq w s))
                  [EvSleep 1])
          (agent_run (price_agent self) pq w
             (after_agent gaming gq s (agent_run (gaming_agent self) gq w s)))
    end.
Proof.
  unfold route_to_both_agents, try_except, bind at 1. rewrite call_agent_run.
  destruct (fst (agent_run (gaming_agent self) gq w s)) as [e|g]; [reflexivity|].
  rewrite bind_emit. unfold bind at 1. rewrite call_agent_run.
  change (agent_run (price_agent self) pq w
            (logged (after_agent gaming gq s (agent_run (gaming_agent self) gq w s))
                    [EvSleep 1]))
    with (agent_run (price_agent self) pq w
            (after_agent gaming gq s (agent_run (gaming_agent self) gq w s))).
  now destruct (fst (agent_run (price_agent self) pq w
                       (after_agent gaming gq s
                          (agent_run (gaming_agent self) gq w s)))).
Qed.

(** C6.  The run of the combined operation, event by event: the gaming
    agent is called, every event of its run follows, it returns; then, and
    only then, the pause and the call of the price agent, the events of its
    run and its return.  When the gaming agent raises instead of
    returning, the price agent is not called at all. *)
Theorem gaming_run_completes_before_price_run self gq pq reason w s :
  let rg := agent_run (gaming_agent self) gq w s in
  let rp := agent_run (price_agent self) pq w (after_agent gaming gq s rg) in
  events_of (route_to_both_agents self gq pq reason) w s =
    EvAgentBegin gaming gq :: map (EvAgent gaming) (log (snd rg)) ++
    match fst rg with
    | inl _ => []
    | inr _ =>
        EvAgentEnd gaming :: EvSleep 1 :: EvAgentBegin price_estimation pq ::
        map (EvAgent price_estimation) (log (snd rp)) ++
        match fst rp with
        | inr _ => [EvAgentEnd price_estimation]
        | inl _ => []
        end
    end.
Proof.
  intros rg rp. apply events_of_appended. rewrite route_to_both_agents_run.
  fold rg. destruct (fst rg) as [e|g] eqn:Eg.
  - unfold after_agent. now rewrite Eg.
  - fold rp. unfold after_agent, logged. simpl. rewrite Eg.
    rewrite <- !app_assoc. simpl. rewrite <- !app_assoc. reflexivity.
Qed.





(** *** Counting agent invocations *)

Lemma agent_invocations_app l1 l2 :
  agent_invocations (l1 ++ l2) = agent_invocations l1 + agent_invocations l2.
Proof. unfold agent_invocations. now rewrite filter_app, length_app. Qed.

Lemma agent_events_hold_no_invocation a l :
  agent_invocations (map (EvAgent a) l) = 0 /\
  existsb is_routing_decide (map (EvAgent a) l) = false.
Proof. induction l as [|e l [IH1 IH2]]; simpl; auto. Qed.

Lemma extends_by_refl n s : extends_by n s s.
Proof.
  exists []. rewrite app_nil_r. repeat split; auto. apply Nat.le_0_l.
Qed.

Lemma extends_by_trans n m s1 s2 s3 :
  extends_by n s1 s2 -> extends_by m s2 s3 -> extends_by (n + m) s1 s3.
Proof.
  intros (l1 & E1 & N1 & Q1) (l2 & E2 & N2 & Q2).
  exists (l1 ++ l2). rewrite E2, E1, <- app_assoc. split; [reflexivity|].
  rewrite agent_invocations_app, existsb_app, Q1, Q2. split; [lia|reflexivity].
Qed.

Lemma extends_by_weaken n m s s' :
  n <= m -> extends_by n s s' -> extends_by m s s'.
Proof. intros H (l & E & N & Q). exists l. repeat split; auto. lia. Qed.

Lemma route_logged fname arguments s :
  extends_by 0 s (logged s [EvRoute fname arguments]).
Proof. exists [EvRoute fname arguments]. repeat split; auto. Qed.

Lemma after_agent_extends a q s r : extends_by 1 s (after_agent a q s r).
Proof.
  unfold after_agent. eexists. split; [reflexivity|].
  destruct (agent_events_hold_no_invocation a (log (snd r))) as [N Q].
  change (EvAgentBegin a q :: ?l) with ([EvAgentBegin a q] ++ l).
  rewrite !agent_invocations_app, !existsb_app, N, Q.
  destruct (fst r); simpl; auto.
Qed.

Lemma call_route_extends fname a error_prefix agent arguments w s :
  extends_by 1 s (snd (call_route fname (route_to a error_prefix agent) arguments w s)).
Proof.
  unfold call_route.
  repeat (rewrite bind_lift_cases;
          match goal with
          | |- context [match ?r with inr _ => _ | inl _ => _ end] =>
              destruct r; [apply extends_by_refl|]
          end).
  rewrite route_to_run. apply after_agent_extends.
Qed.

Lemma route_to_both_agents_extends self gq pq reason w s :
  extends_by 2 s (snd (route_to_both_agents self gq pq reason w s)).
Proof.
  rewrite route_to_both_agents_run.
  destruct (fst (agent_run (gaming_agent self) gq w s)).
  - apply (extends_by_weaken 1); [lia|apply after_agent_extends].
  - eapply (extends_by_trans 1 1); [apply after_agent_extends|].
    eapply (extends_by_trans 0 1); [|apply after_agent_extends].
    exists [EvSleep 1]. repeat split; auto.
Qed.

(** One routing call starts at most one agent run, and two when it is
    the combined operation. *)
Lemma execute_routing_call_extends self name arguments w s :
  extends_by (if name =? "route_to_both_agents" then 2 else 1) s
             (snd (execute_routing_call self name arguments w s)).
Proof.
  unfold execute_routing_call. rewrite bind_emit.
  assert (Hs := route_logged name arguments s).
  assert (H1 : forall fn a error_prefix agent,
             (name =? "route_to_both_agents") = false ->
             extends_by (if name =? "route_to_both_agents" then 2 else 1) s
               (snd (call_route fn (route_to a error_prefix agent) arguments w
                       (logged s [EvRoute name arguments])))).
  { intros fn a error_prefix agent ->.
    apply (extends_by_trans 0 1 _ _ _ Hs), call_route_extends. }
  repeat match goal with
         | |- context [if ?n =? ?lit then call_route _ _ _ else _] =>
             destruct (n =? lit) eqn:?;
             [apply H1;
              match goal with
              | H : (name =? _) = true |- _ =>
                  apply String.eqb_eq in H; now rewrite H
              end
             |]
         end.
  destruct (name =? "route_to_both_agents").
  - repeat (rewrite bind_lift_cases;
            match goal with
            | |- context [match ?r with inr _ => _ | inl _ => _ end] =>
                destruct r;
                [apply (extends_by_weaken 0); [lia|exact Hs]|]
            end).
    apply (extends_by_trans 0 2 _ _ _ Hs), route_to_both_agents_extends.
  - apply (extends_by_weaken 0); [lia|exact Hs].
Qed.

Lemma execute_routing_call_extends_by_two self name arguments w s :
  extends_by 2 s (snd (execute_routing_call self name arguments w s)).
Proof.
  eapply extends_by_weaken; [|apply execute_routing_call_extends].
  destruct (name =? "route_to_both_agents"); lia.
Qed.

(** The routing loop: at most two agent runs per routing call, no
    decision call of the orchestrator, and, when it returns, a
    conversation grown by the answers to the routing calls, nothing
    else. *)
Lemma process_routing_calls_shape self calls messages results w s :
  extends_by (2 * length calls) s
             (snd (process_routing_calls self calls messages results w s)) /\
  forall looped,
    fst (process_routing_calls self calls messages results w s) = inr looped ->
    exists turns, fst looped = messages ++ turns /\ answers calls turns.
Proof.
  revert messages results s.
  induction calls as [|tc rest IH]; intros messages results s.
  - simpl. split; [apply extends_by_refl|].
    intros looped [= <-]. exists []. rewrite app_nil_r.
    split; [reflexivity|constructor].
  - cbn [process_routing_calls]. unfold bind at 1 3.
    destruct (tc_arguments tc) as [a|]; simpl json_loads.
    2:{ simpl. split; [apply extends_by_refl|discriminate]. }
    unfold ret at 1 2. unfold bind.
    pose proof (execute_routing_call_extends_by_two self (tc_name tc) a w s) as Hq.
    destruct (execute_routing_call self (tc_name tc) a w s) as [[e|v] s1];
      simpl in Hq.
    + simpl. split; [|discriminate].
      apply (extends_by_weaken 2); [simpl; lia|exact Hq].
    + destruct (IH (messages ++ [MsgTool (tc_id tc) v]) (results ++ [v]) s1)
        as [IH1 IH2].
      split.
      * replace (2 * length (tc :: rest)) with (2 + 2 * length rest)
          by (simpl; lia).
        eapply extends_by_trans; eauto.
      * intros looped Hm. destruct (IH2 looped Hm) as (turns & -> & Hans).
        exists (MsgTool (tc_id tc) v :: turns). rewrite <- app_assoc.
        split; [reflexivity|]. constructor; [now exists v|exact Hans].
Qed.

Lemma orchestrator_chat_log self q w s :
  log (snd (chat self q w s)) =
    match decision_service w (ds_calls s) (routing_round q) with
    | inl _ => log (routed s (routing_round q))
    | inr response =>
        match tool_calls response with
        | [] => log (routed s (routing_round q))
        | _ :: _ =>
            let r := process_routing_calls self (tool_calls response)
                       (NFTOrchestrator.initial_messages q ++ [MsgAssistant response])
                       [] w (routed s (routing_round q)) in
            log (snd r) ++
              match fst r with
              | inr looped => [EvDecide (DsRequest (fst looped) None)]
              | inl _ => []
              end
        end
    end.
Proof.
  unfold chat, try_except, bind at 1, completions_create at 1.
  fold (routing_round q). fold (routed s (routing_round q)).
  destruct (decision_service w (ds_calls s) (routing_round q)) as [e|response];
    [reflexivity|].
  destruct (tool_calls response) as [|tc rest] eqn:Etc.
  - unfold bind, when_verbose, report_length, lift, ret.
    destruct (verbose self); [|reflexivity].
    now destruct (len (of_optional (content response))).
  - unfold bind at 1.
    destruct (process_routing_calls self (tc :: rest)
                (NFTOrchestrator.initial_messages q ++ [MsgAssistant response]) [] w
                (routed s (routing_round q))) as [[e|looped] s2]; simpl.
    + now rewrite app_nil_r.
    + unfold bind, completions_create, when_verbose, report_length, lift, ret.
      destruct (decision_service w (ds_calls s2) (DsRequest (fst looped) None))
        as [e|final]; [reflexivity|].
      destruct (verbose self); [|reflexivity].
      now destruct (len (of_optional (content final))).
Qed.

Lemma unrouted_events_hold_no_decide evs req :
  existsb is_routing_decide evs = false -> ~ In (EvDecide req) evs.
Proof.
  intros H Hin. assert (existsb is_routing_decide evs = true); [|congruence].
  apply existsb_exists. now exists (EvDecide req).
Qed.

(** The events of a run of the orchestrator's [chat]: the routing call,
    then events that hold at most two agent runs per routing call and
    among which the only decision call of the orchestrator there can be is
    the round-2 call, sent with the round-1 conversation, the assistant's
    message and one tool turn per routing call. *)
Lemma orchestrator_chat_events self q w s :
  exists evs,
    events_of (chat self q) w s = EvDecide (routing_round q) :: evs /\
    agent_invocations evs <=
      2 * match decision_service w (ds_calls s) (routing_round q) with
          | inr response => length (tool_calls response)
          | inl _ => 0
          end /\
    forall req,
      In (EvDecide req) evs ->
      exists response turns,
        decision_service w (ds_calls s) (routing_round q) = inr response /\
        req = DsRequest (NFTOrchestrator.initial_messages q ++
                         MsgAssistant response :: turns) None /\
        answers (tool_calls response) turns.
Proof.
  destruct (decision_service w (ds_calls s) (routing_round q))
    as [e|response] eqn:Hds.
  - exists []. split; [|split; [apply Nat.le_0_l|intros req []]].
    apply events_of_appended. now rewrite orchestrator_chat_log, Hds.
  - destruct (tool_calls response) as [|tc rest] eqn:Etc.
    + exists []. split; [|split; [apply Nat.le_0_l|intros req []]].
      apply events_of_appended. now rewrite orchestrator_chat_log, Hds, Etc.
    + destruct (process_routing_calls_shape self (tc :: rest)
                  (NFTOrchestrator.initial_messages q ++ [MsgAssistant response])
                  [] w (routed s (routing_round q)))
        as [(evs & Hevs & Hn & Hq) Hturns].
      destruct (process_routing_calls self (tc :: rest)
                  (NFTOrchestrator.initial_messages q ++ [MsgAssistant response])
                  [] w (routed s (routing_round q))) as [[e|looped] s2] eqn:Hloop;
        simpl in Hevs, Hturns.
      * exists evs. split; [|split; [exact Hn|]].
        -- apply events_of_appended.
           rewrite orchestrator_chat_log, Hds, Etc. cbv zeta. rewrite Hloop.
           simpl fst. simpl snd. rewrite Hevs, app_nil_r. simpl.
           now rewrite <- app_assoc.
        -- intros req Hin. now apply unrouted_events_hold_no_decide in Hin.
      * exists (evs ++ [EvDecide (DsRequest (fst looped) None)]).
        split; [|split].
        -- apply events_of_appended.
           rewrite orchestrator_chat_log, Hds, Etc. cbv zeta. rewrite Hloop.
           simpl fst. simpl snd. rewrite Hevs. simpl. now rewrite <- !app_assoc.
        -- rewrite agent_invocations_app.
           unfold agent_invocations in *. simpl in *. lia.
        -- intros req Hin. apply in_app_or in Hin. destruct Hin as [Hin|Hin];
             [now apply unrouted_events_hold_no_decide in Hin|].
           destruct Hin as [[= <-]|[]].
           destruct (Hturns looped eq_refl) as (turns & -> & Hans).
           exists response, turns. split; [reflexivity|].
           split; [reflexivity|now rewrite Etc].
Qed.


(** C8, as the code has it.  A run of [chat] starts at most two agent runs
    for each routing call that the routing round returned, none when it
    returned a text or failed; one routing call starts at most one agent
    run, and at most two when it is the combined operation. *)
Theorem agent_invocations_bounded_by_routing_calls self :
  (forall q w s,
      agent_invocations (events_of (chat self q) w s) <=
        2 * match decision_service w (ds_calls s) (routing_round q) with
            | inr response => length (tool_calls response)
            | inl _ => 0
            end) /\
  (forall name arguments w s,
      agent_invocations (events_of (execute_routing_call self name arguments) w s) <=
        if name =? "route_to_both_agents" then 2 else 1).
Proof.
  split.
  - intros q w s.
    destruct (orchestrator_chat_events self q w s) as (evs & -> & Hn & _).
    change (EvDecide (routing_round q) :: evs)
      with ([EvDecide (routing_round q)] ++ evs).
    rewrite agent_invocations_app. simpl. exact Hn.
  - intros name arguments w s.
    destruct (execute_routing_call_extends self name arguments w s)
      as (evs & E & Hn & _).
    now rewrite (events_of_appended _ _ _ _ E).
Qed.

(** C8 refuted as stated: the routing round may return three routing
    calls, and the loop runs an agent for each of them. *)
Lemma three_routing_calls_start_three_agent_runs :
  agent_invocations
    (events_of (chat Scenarios.orchestrator "Compare Nike, Adidas and Puma")
               Scenarios.three_brands start) = 3.
Proof. reflexivity. Qed.


End Routing.

(* ================================================================== *)
(** ** The endpoint *)
(* ================================================================== *)

Module Endpoint.

Import NFTOrchestrator Api.

(** The orchestrator returns from [chat] whatever happens inside. *)
Lemma orchestrator_chat_returns self q w s :
  exists r, fst (chat self q w s) = inr r.
Proof.
  unfold chat, try_except.
  match goal with
  | |- context [match ?m w s with _ => _ end] => destruct (m w s) as [[e|v] s1]
  end; simpl; eauto.
Qed.

(** A failure of the routing call is turned into a text by [chat]. *)
Lemma chat_on_routing_failure self q w s e :
  decision_service w (ds_calls s) (routing_round q) = inl e ->
  fst (chat self q w s) = inr (Some ("An error occurred: " ++ exc_str e)%string).
Proof.
  intros H. unfold chat, try_except, bind at 1, completions_create.
  fold (routing_round q). now rewrite H.
Qed.

Lemma chat_endpoint_on_instance o request w s r :
  fst (chat (set_verbose o (req_verbose request)) (message request) w s) = inr r ->
  fst (chat_endpoint (inr o) request w s) =
    inr match r with
        | Some text => answered request text
        | None => failed request not_iterable
        end.
Proof.
  intros H. unfold chat_endpoint, try_except. rewrite bind_lift_cases.
  unfold bind at 1.
  destruct (chat (set_verbose o (req_verbose request)) (message request) w s)
    as [[e|r'] s1]; simpl in H; [discriminate|]. injection H as ->.
  now destruct r.
Qed.

(** C1, as the code has it.  The response has [success=false], an empty
    [response] and the text of the exception in [error] exactly when an
    exception is raised inside the endpoint itself: when
    [get_orchestrator()] raises, or when [chat] returned [None] and the
    first substring test raises.  In every other case it has
    [success=true], no [error], and the text that [chat] returned.  In
    particular a failure of the orchestrator's routing call does not reach
    the endpoint: [chat] turns it into the text ["An error occurred: ..."],
    and the response carries that text with [success=true]. *)
Theorem chat_endpoint_success_follows_what_chat_returns request w s :
  (forall e,
      fst (chat_endpoint (inl e) request w s) = inr (failed request e)) /\
  (forall o,
      exists r,
        fst (chat (set_verbose o (req_verbose request)) (message request) w s) =
          inr r /\
        fst (chat_endpoint (inr o) request w s) =
          inr match r with
              | Some text => answered request text
              | None => failed request not_iterable
              end) /\
  (forall o e,
      decision_service w (ds_calls s) (routing_round (message request)) = inl e ->
      fst (chat_endpoint (inr o) request w s) =
        inr (answered request ("An error occurred: " ++ exc_str e))).
Proof.
  split; [reflexivity|]. split.
  - intros o.
    destruct (orchestrator_chat_returns (set_verbose o (req_verbose request))
                (message request) w s) as (r & Hr).
    exists r. split; [exact Hr|]. now apply chat_endpoint_on_instance.
  - intros o e H.
    apply (chat_endpoint_on_instance o request w s
             (Some ("An error occurred: " ++ exc_str e)%string)).
    now apply chat_on_routing_failure.
Qed.

Lemma chat_endpoint_success_on_outage :
  fst (chat_endpoint (inr Scenarios.orchestrator)
         {| message := "What is the floor price of Azuki?"; req_verbose := true |}
         Scenarios.outage start) =
    inr (answered
           {| message := "What is the floor price of Azuki?"; req_verbose := true |}
           ("An error occurred: " ++ exc_str (Exc OtherException "Connection error."))).
Proof.
  apply (proj2 (proj2 (chat_endpoint_success_follows_what_chat_returns
                         {| message := "What is the floor price of Azuki?";
                            req_verbose := true |}
                         Scenarios.outage start))
           Scenarios.orchestrator (Exc OtherException "Connection error.")).
  reflexivity.
Defined.

(** C1 refuted as stated: the decision service is down, the routing call
    of the orchestrator fails, and the response has [success=true]. *)
Lemma routing_failure_is_answered_with_success :
  decision_service Scenarios.outage 0
    (routing_round "What is the floor price of Azuki?") =
    inl (Exc OtherException "Connection error.") /\
  fst (chat_endpoint (inr Scenarios.orchestrator)
         {| message := "What is the floor price of Azuki?"; req_verbose := true |}
         Scenarios.outage start) =
    inr {| response := "An error occurred: Connection error.";
           agent_used := "unknown";
           query := "What is the floor price of Azuki?";
           reason := "Query processed by orchestrator";
           success := true;
           error := None |}.
Proof. split; reflexivity. Qed.

(** C10, as the code has it.  [agent_used] and [reason] are computed from
    the text that [chat] returned, by the chain of substring tests.  A
    text that holds both the briefcase and "Wallet", and passes none of the
    five tests that come before the wallet test (gaming, price, brand,
    DeFi, fungible), is labelled "wallet", also when it holds "Portfolio";
    a text that passes no test is labelled "unknown"; in both cases the
    response has [success=true]. *)
Theorem agent_used_follows_the_first_matching_pattern text :
  (forall o request w s,
      fst (chat (set_verbose o (req_verbose request)) (message request) w s) =
        inr (Some text) ->
      fst (chat_endpoint (inr o) request w s) = inr (answered request text)) /\
  (forall request,
      matches "💼" "Wallet" text = true ->
      matches_before_wallet text = false ->
      agent_used (answered request text) = "wallet" /\
      success (answered request text) = true) /\
  (forall request,
      matches_some_pattern text = false ->
      agent_used (answered request text) = "unknown" /\
      success (answered request text) = true).
Proof.
  split; [|split].
  - intros o request w s H.
    apply (chat_endpoint_on_instance o request w s (Some text) H).
  - intros request Hw Hb. split; [|reflexivity].
    unfold matches_before_wallet in Hb. unfold matches in *.
    repeat (apply orb_false_elim in Hb; destruct Hb as [Hb ?]).
    simpl. unfold classify.
    repeat match goal with H : _ = false |- _ => rewrite H; clear H end.
    now rewrite Hw.
  - intros request Hn. split; [|reflexivity].
    unfold matches_some_pattern, matches_before_wallet in Hn. unfold matches in *.
    repeat (apply orb_false_elim in Hn; destruct Hn as [Hn ?]).
    simpl. unfold classify.
    repeat match goal with H : _ = false |- _ => rewrite H; clear H end.
    reflexivity.
Qed.

Lemma agent_used_on_wallet_and_portfolio_text :
  agent_used
    (answered {| message := "Show my holdings"; req_verbose := false |}
              "💼 Wallet 0xabc: Portfolio of 3 NFTs") = "wallet" /\
  success
    (answered {| message := "Show my holdings"; req_verbose := false |}
              "💼 Wallet 0xabc: Portfolio of 3 NFTs") = true.
Proof.
  apply (proj1 (proj2 (agent_used_follows_the_first_matching_pattern
                         "💼 Wallet 0xabc: Portfolio of 3 NFTs"))
           {| message := "Show my holdings"; req_verbose := false |}).
  - reflexivity.
  - reflexivity.
Defined.

(** C10 refuted as stated: a text that holds both the briefcase and
    "Wallet" is labelled "gaming" when it also passes the gaming test,
    which comes first. *)
Lemma wallet_text_is_labelled_gaming :
  contains "💼" "🎮 Gaming wallets: 💼 Wallet 0xabc holds 3 items" = true /\
  contains "Wallet" "🎮 Gaming wallets: 💼 Wallet 0xabc holds 3 items" = true /\
  fst (chat_endpoint (inr Scenarios.orchestrator)
         {| message := "Which wallets play?"; req_verbose := true |}
         Scenarios.gaming_wallets start) =
    inr {| response := "🎮 Gaming wallets: 💼 Wallet 0xabc holds 3 items";
           agent_used := "gaming";
           query := "Which wallets play?";
           reason := "Query routed to NFT Gaming Agent";
           success := true;
           error := None |}.
Proof. repeat split; reflexivity. Qed.

End Endpoint.

(* ================================================================== *)
(** ** Further properties of the agent *)
(* ================================================================== *)

Module AgentRuns.

Import NFTBrandAgent.

(** The state in which [chat] returns. *)
Lemma chat_state self q w s :
  snd (chat self q w s) =
    match decision_service w (ds_calls s) (round1 q) with
    | inl _ => decided s (round1 q)
    | inr response =>
        match tool_calls response with
        | [] => decided s (round1 q)
        | _ :: _ =>
            let r := process_tool_calls self (tool_calls response)
                       (initial_messages q ++ [MsgAssistant response]) w
                       (decided s (round1 q)) in
            match fst r with
            | inr m => decided (snd r) (DsRequest m None)
            | inl _ => snd r
            end
        end
    end.
Proof.
  unfold chat, try_except, bind at 1, completions_create at 1.
  fold (round1 q). fold (decided s (round1 q)).
  destruct (decision_service w (ds_calls s) (round1 q)) as [e|response];
    [reflexivity|].
  destruct (tool_calls response) as [|tc rest] eqn:Etc.
  - unfold bind, when_verbose, report_length, lift, ret.
    destruct (verbose self); [|reflexivity].
    now destruct (len (of_optional (content response))).
  - unfold bind at 1.
    destruct (process_tool_calls self (tc :: rest)
                (initial_messages q ++ [MsgAssistant response]) w
                (decided s (round1 q))) as [[e|m] s2]; simpl; [reflexivity|].
    unfold bind, completions_create, when_verbose, report_length, lift, ret.
    unfold decided.
    destruct (decision_service w (ds_calls s2) (DsRequest m None)) as [e|final];
      [reflexivity|].
    destruct (verbose self); [|reflexivity].
    now destruct (len (of_optional (content final))).
Qed.

(** X1.  When the round-1 call to the decision service raises, [chat]
    returns the text "An error occurred: " followed by the message of the
    exception, and the run is that one call: nothing is dispatched, no GET
    is sent, no second call is made. *)
Theorem chat_reports_a_failed_decision self q w s e :
  decision_service w (ds_calls s) (round1 q) = inl e ->
  chat self q w s = (inr (error_text e), decided s (round1 q)) /\
  events_of (chat self q) w s = [AgDecide (round1 q)].
Proof.
  intros H.
  assert (E : chat self q w s = (inr (error_text e), decided s (round1 q))).
  { unfold chat, try_except, bind at 1, completions_create.
    fold (round1 q). now rewrite H. }
  split; [exact E|]. apply events_of_appended. now rewrite E.
Qed.

Lemma chat_reports_an_outage :
  chat Scenarios.brand_agent (JStr "Show me Nike brand metrics")
       Scenarios.outage start =
    (inr (error_text (Exc OtherException "Connection error.")),
     decided start (round1 (JStr "Show me Nike brand metrics"))) /\
  events_of (chat Scenarios.brand_agent (JStr "Show me Nike brand metrics"))
            Scenarios.outage start =
    [AgDecide (round1 (JStr "Show me Nike brand metrics"))].
Proof.
  apply (chat_reports_a_failed_decision Scenarios.brand_agent
           (JStr "Show me Nike brand metrics") Scenarios.outage start
           (Exc OtherException "Connection error.")).
  reflexivity.
Defined.

(** X2.  When the round-1 reply asks for no tool, [chat] returns the
    content of the reply after that one call.  A reply without content is
    returned as [None] by a quiet agent, while a verbose agent, which
    measures the text it is about to return, reports the [TypeError] of
    [len(None)] as its answer. *)
Theorem chat_returns_a_direct_reply self q w s reply :
  decision_service w (ds_calls s) (round1 q) = inr (Completion reply []) ->
  chat self q w s =
    (inr (match reply with
          | Some text => Some text
          | None => if verbose self then error_text no_len else None
          end),
     decided s (round1 q)).
Proof.
  intros H. unfold chat, try_except, bind at 1, completions_create.
  fold (round1 q). rewrite H. simpl.
  unfold bind, when_verbose, report_length, lift, ret.
  destruct reply, (verbose self); reflexivity.
Qed.

Lemma chat_returns_none_when_quiet :
  chat (Agent "api-key" false) (JStr "Hello")
       (scripted [inr (Completion None [])] []) start =
    (inr (match @None string with
          | Some text => Some text
          | None => if verbose (Agent "api-key" false) then error_text no_len
                    else None
          end),
     decided start (round1 (JStr "Hello"))).
Proof.
  apply (chat_returns_a_direct_reply (Agent "api-key" false) (JStr "Hello")
           (scripted [inr (Completion None [])] []) start None).
  reflexivity.
Defined.

Lemma process_tool_calls_fault self tc rest messages w s e s2 :
  dispatch_step self tc w s = (inl e, s2) ->
  process_tool_calls self (tc :: rest) messages w s = (inl e, s2).
Proof.
  unfold dispatch_step. simpl. unfold bind.
  destruct (json_loads (tc_arguments tc) w s) as [[e1|a] s1]; [congruence|].
  destruct (execute_function_call self (tc_name tc) a w s1) as [[e1|v] s3];
    [congruence|discriminate].
Qed.

Lemma chat_on_loop_fault self q w s response e s2 :
  decision_service w (ds_calls s) (round1 q) = inr response ->
  tool_calls response <> [] ->
  process_tool_calls self (tool_calls response)
    (initial_messages q ++ [MsgAssistant response]) w (decided s (round1 q)) =
    (inl e, s2) ->
  chat self q w s = (inr (error_text e), s2).
Proof.
  intros Hds Hne Hloop.
  unfold chat, try_except, bind at 1, completions_create at 1.
  fold (round1 q). fold (decided s (round1 q)). rewrite Hds.
  destruct (tool_calls response) as [|tc rest]; [congruence|].
  unfold bind at 1. now rewrite Hloop.
Qed.

(** X3.  A request that raises, because its arguments are not JSON or
    because its dispatch raises, ends the run: the requests before it have
    been executed, the requests after it are not, no round-2 call is made,
    and [chat] returns "An error occurred: " followed by the message of
    that exception, in the state in which it was raised. *)
Theorem a_fault_in_the_batch_ends_the_run
    self q w s response pre tc post m1 s1 e s2 :
  decision_service w (ds_calls s) (round1 q) = inr response ->
  tool_calls response = pre ++ tc :: post ->
  process_tool_calls self pre
    (initial_messages q ++ [MsgAssistant response]) w (decided s (round1 q)) =
    (inr m1, s1) ->
  dispatch_step self tc w s1 = (inl e, s2) ->
  chat self q w s = (inr (error_text e), s2) /\
  (forall req, In (AgDecide req) (events_of (chat self q) w s) -> req = round1 q).
Proof.
  intros Hds Hcalls Hpre Hstep.
  assert (Hloop :
            process_tool_calls self (tool_calls response)
              (initial_messages q ++ [MsgAssistant response]) w
              (decided s (round1 q)) = (inl e, s2)).
  { rewrite Hcalls, AgentProtocol.process_tool_calls_app.
    rewrite (bind_inr _ _ _ _ _ _ Hpre).
    now apply process_tool_calls_fault. }
  assert (Hne : tool_calls response <> []).
  { rewrite Hcalls. now destruct pre. }
  split; [now apply (chat_on_loop_fault self q w s response)|].
  intros req Hin.
  destruct (AgentProtocol.chat_events self q w s) as (evs & E & Hevs).
  rewrite E in Hin. destruct Hin as [[= <-]|Hin]; [reflexivity|].
  exfalso.
  destruct (Hevs req Hin) as (response' & turns & Hds' & -> & _).
  assert (response' = response) as -> by congruence.
  pose proof (AgentProtocol.chat_log self q w s) as Hlog.
  rewrite Hds in Hlog. destruct (tool_calls response) as [|x l] eqn:Ex;
    [congruence|]. cbv zeta in Hlog. rewrite Hloop in Hlog. simpl in Hlog.
  rewrite app_nil_r in Hlog.
  destruct (AgentProtocol.process_tool_calls_shape self (x :: l)
              (initial_messages q ++ [MsgAssistant response]) w
              (decided s (round1 q))) as [[_ (evs' & Hevs' & Hq)] _].
  rewrite Hloop in Hevs'. simpl in Hevs'.
  assert (Eevs : events_of (chat self q) w s = AgDecide (round1 q) :: evs').
  { apply events_of_appended. rewrite Hlog, Hevs'. simpl.
    now rewrite <- app_assoc. }
  rewrite E in Eevs. injection Eevs as ->.
  now apply (AgentProtocol.quiet_events_hold_no_decide evs' _ Hq) in Hin.
Qed.

Lemma unparsed_arguments_end_the_run :
  chat Scenarios.brand_agent (JStr "Compare Starbucks and Nike")
       (scripted
          [inr (Completion None
                  [Scenarios.starbucks_call;
                   ToolCall "call_9" "get_brand_details" None;
                   Scenarios.nike_call])]
          [inr Scenarios.brand_metrics])
       start =
    (inr (error_text (Exc ValueError "Expecting value: line 1 column 1 (char 0)")),
     MkSt 1 1
          [AgDecide (round1 (JStr "Compare Starbucks and Nike"));
           AgExecute "get_brand_details" (JObj [("brand", JStr "StarBucks")]);
           AgGet (HttpRequest [Lit base_url] (headers Scenarios.brand_agent)
                    [("brand", JStr "StarBucks"); ("time_range", JStr "24h")])]) /\
  (forall req,
      In (AgDecide req)
         (events_of (chat Scenarios.brand_agent (JStr "Compare Starbucks and Nike"))
            (scripted
               [inr (Completion None
                       [Scenarios.starbucks_call;
                        ToolCall "call_9" "get_brand_details" None;
                        Scenarios.nike_call])]
               [inr Scenarios.brand_metrics])
            start) ->
      req = round1 (JStr "Compare Starbucks and Nike")).
Proof.
  eapply (a_fault_in_the_batch_ends_the_run
           Scenarios.brand_agent (JStr "Compare Starbucks and Nike")
           (scripted
              [inr (Completion None
                      [Scenarios.starbucks_call;
                       ToolCall "call_9" "get_brand_details" None;
                       Scenarios.nike_call])]
              [inr Scenarios.brand_metrics])
           start
           (Completion None
              [Scenarios.starbucks_call;
               ToolCall "call_9" "get_brand_details" None;
               Scenarios.nike_call])
           [Scenarios.starbucks_call]
           (ToolCall "call_9" "get_brand_details" None)
           [Scenarios.nike_call]
           (initial_messages (JStr "Compare Starbucks and Nike") ++
            [MsgAssistant
               (Completion None
                  [Scenarios.starbucks_call;
                   ToolCall "call_9" "get_brand_details" None;
                   Scenarios.nike_call]);
             MsgTool "call_1" Scenarios.brand_metrics])).
  - reflexivity.
  - reflexivity.
  - reflexivity.
  - reflexivity.
Defined.

Lemma unexpected_keyword_some (props params : list string) (kw : dict) :
  (forall k, existsb (String.eqb k) params = true ->
             existsb (String.eqb k) props = true) ->
  forallb (fun kv => existsb (String.eqb (fst kv)) props) kw = false ->
  exists k, unexpected_keyword params kw = Some k.
Proof.
  intros Hsub. induction kw as [|[k v] kw IH]; simpl; intros H.
  - discriminate.
  - destruct (existsb (String.eqb k) params) eqn:Ek; [|now exists k].
    rewrite (Hsub _ Ek) in H. now apply IH.
Qed.

Lemma as_kwargs_raises_type_error fname params arguments e :
  as_kwargs fname params arguments = inl e -> exc_class_of e = TypeError.
Proof.
  unfold as_kwargs. destruct arguments as [| | | |?|kw]; try now intros [= <-].
  destruct (unexpected_keyword params kw); [now intros [= <-]|discriminate].
Qed.

Lemma kwarg_missing fname p (kw : dict) :
  has_key p kw = false ->
  exists e, kwarg fname p None kw = inl e /\ exc_class_of e = TypeError.
Proof.
  unfold has_key, kwarg. destruct (dict_get p kw); [discriminate|].
  intros _. eexists. split; reflexivity.
Qed.

(** X4.  For an operation of the registry, arguments that do not follow
    its declared schema (not a dict, a key that is no declared parameter,
    a required parameter left out) make the call of the handler raise a
    [TypeError] through the dispatcher, before any GET is sent. *)
Theorem execute_function_call_rejects_other_arguments self td arguments w s :
  In td tools ->
  conforms td arguments = false ->
  exists e,
    execute_function_call self (td_name td) arguments w s =
      (inl e, logged s [AgExecute (td_name td) arguments]) /\
    exc_class_of e = TypeError.
Proof.
  intros Htd Hc.
  assert (Hbind : forall fname params (k : dict -> AM json),
             (forall kw, arguments = JObj kw ->
                         unexpected_keyword params kw = None ->
                         exists e,
                           k kw w (logged s [AgExecute (td_name td) arguments]) =
                             (inl e, logged s [AgExecute (td_name td) arguments]) /\
                           exc_class_of e = TypeError) ->
             exists e,
               bind (lift (as_kwargs fname params arguments)) k w
                    (logged s [AgExecute (td_name td) arguments]) =
                 (inl e, logged s [AgExecute (td_name td) arguments]) /\
               exc_class_of e = TypeError).
  { intros fname params k Hk. rewrite bind_lift_cases.
    destruct (as_kwargs fname params arguments) as [e|kw] eqn:Ekw.
    - exists e. split; [reflexivity|].
      now apply (as_kwargs_raises_type_error _ _ _ _ Ekw).
    - unfold as_kwargs in Ekw. destruct arguments as [| | | |?|kw']; try discriminate.
      destruct (unexpected_keyword params kw') eqn:Eu; [discriminate|].
      injection Ekw as <-. now apply Hk. }
  assert (Hreq : forall fname p (kw : dict) (k : json -> AM json) st,
             has_key p kw = false ->
             exists e,
               bind (lift (kwarg fname p None kw)) k w st = (inl e, st) /\
               exc_class_of e = TypeError).
  { intros fname p kw k st Hp.
    destruct (kwarg_missing fname p kw Hp) as (e & -> & He). now exists e. }
  simpl in Htd. destruct Htd as [<-|[<-|[<-|[]]]];
    unfold execute_function_call; rewrite bind_emit; cbn [td_name] in *;
    decide_names; apply Hbind; intros kw -> Hu; apply Hreq;
    simpl in Hc; apply andb_false_iff in Hc; destruct Hc as [Hc|Hc].
  - destruct (unexpected_keyword_some ["brand"; "time_range"]
                ["brand"; "time_range"] kw) as (k & Hk); auto. congruence.
  - now rewrite andb_true_r in Hc.
  - destruct (unexpected_keyword_some
                ["chain_id"; "contract_address"; "time_range"]
                ["contract_address"; "chain_id"; "time_range"] kw) as (k & Hk);
      auto; [|congruence].
    intros k. simpl.
    destruct (k =? "chain_id"), (k =? "contract_address"), (k =? "time_range");
      auto.
  - now rewrite andb_true_r in Hc.
  - destruct (unexpected_keyword_some ["category"; "limit"; "offset"]
                ["category"; "limit"; "offset"] kw) as (k & Hk); auto. congruence.
  - now rewrite andb_true_r in Hc.
Qed.

Lemma execute_function_call_rejects_a_list :
  exists e,
    execute_function_call Scenarios.brand_agent
        (td_name (ToolDef "get_brand_category_details"
                          ["category"; "limit"; "offset"] ["category"]))
        (JArr [JStr "Sports"]) Scenarios.silent start =
      (inl e,
       logged start
         [AgExecute
            (td_name (ToolDef "get_brand_category_details"
                              ["category"; "limit"; "offset"] ["category"]))
            (JArr [JStr "Sports"])]) /\
    exc_class_of e = TypeError.
Proof.
  apply (execute_function_call_rejects_other_arguments Scenarios.brand_agent
           (ToolDef "get_brand_category_details"
                    ["category"; "limit"; "offset"] ["category"])
           (JArr [JStr "Sports"]) Scenarios.silent start).
  - simpl. auto.
  - reflexivity.
Defined.

Lemma kwarg_present fname p default (kw : dict) v :
  dict_get p kw = Some v -> kwarg fname p default kw = inr v.
Proof. unfold kwarg. now intros ->. Qed.

Lemma kwarg_get_or fname p d (kw : dict) :
  kwarg fname p (Some d) kw = inr (Service.get_or p d kw).
Proof. unfold kwarg, Service.get_or. now destruct (dict_get p kw). Qed.

Lemma as_kwargs_keys_among fname params (kw : dict) :
  keys_among params kw = true -> as_kwargs fname params (JObj kw) = inr kw.
Proof. intros H. now apply (as_kwargs_conforming fname params params). Qed.

(** X5.  [get_brand_details], called through the dispatcher with a brand
    and at most a time range, sends one GET to the base URL, with the
    agent's headers and the parameters [brand] and [time_range] in that
    order; a time range left out is sent as "24h". *)
Theorem get_brand_details_sends_brand_and_time_range self kw brand w s :
  keys_among ["brand"; "time_range"] kw = true ->
  dict_get "brand" kw = Some brand ->
  events_of (execute_function_call self "get_brand_details" (JObj kw)) w s =
    [AgExecute "get_brand_details" (JObj kw);
     AgGet (HttpRequest [Lit base_url]
              [("accept", "application/json"); ("x-api-key", api_key self)]
              [("brand", brand);
               ("time_range", Service.get_or "time_range" (JStr "24h") kw)])].
Proof.
  intros Hk Hb. apply events_of_appended.
  unfold execute_function_call. rewrite bind_emit. decide_names.
  rewrite (bind_lift _ _ _ _ _ (as_kwargs_keys_among _ _ _ Hk)).
  rewrite (bind_lift _ _ _ _ _ (kwarg_present _ _ _ _ _ Hb)).
  rewrite (bind_lift _ _ _ _ _ (kwarg_get_or _ _ _ _)).
  unfold get_brand_details. rewrite AgentProtocol.fetch_state.
  simpl. now rewrite <- app_assoc.
Qed.

Lemma get_brand_details_defaults_to_a_day :
  events_of (execute_function_call Scenarios.brand_agent "get_brand_details"
               (JObj [("brand", JStr "StarBucks")]))
            Scenarios.silent start =
    [AgExecute "get_brand_details" (JObj [("brand", JStr "StarBucks")]);
     AgGet (HttpRequest [Lit base_url]
              [("accept", "application/json");
               ("x-api-key", api_key Scenarios.brand_agent)]
              [("brand", JStr "StarBucks");
               ("time_range",
                Service.get_or "time_range" (JStr "24h")
                  [("brand", JStr "StarBucks")])])].
Proof.
  apply (get_brand_details_sends_brand_and_time_range Scenarios.brand_agent
           [("brand", JStr "StarBucks")] (JStr "StarBucks") Scenarios.silent start).
  - reflexivity.
  - reflexivity.
Defined.

(** X6.  [get_brand_metrics_by_contract], called through the dispatcher
    with a contract address and at most a chain and a time range, sends one
    GET whose URL is the base URL followed by the chain and the address,
    with [time_range] as its only parameter; a chain left out is 1
    (Ethereum), a time range left out is "24h". *)
Theorem get_brand_metrics_by_contract_puts_chain_and_address_in_the_url
    self kw address w s :
  keys_among ["contract_address"; "chain_id"; "time_range"] kw = true ->
  dict_get "contract_address" kw = Some address ->
  events_of
    (execute_function_call self "get_brand_metrics_by_contract" (JObj kw)) w s =
    [AgExecute "get_brand_metrics_by_contract" (JObj kw);
     AgGet (HttpRequest
              [Lit base_url; Lit "/";
               Fmt (Service.get_or "chain_id" (JNum 1) kw); Lit "/"; Fmt address]
              [("accept", "application/json"); ("x-api-key", api_key self)]
              [("time_range", Service.get_or "time_range" (JStr "24h") kw)])].
Proof.
  intros Hk Hb. apply events_of_appended.
  unfold execute_function_call. rewrite bind_emit. decide_names.
  rewrite (bind_lift _ _ _ _ _ (as_kwargs_keys_among _ _ _ Hk)).
  rewrite (bind_lift _ _ _ _ _ (kwarg_present _ _ _ _ _ Hb)).
  rewrite (bind_lift _ _ _ _ _ (kwarg_get_or _ _ _ _)).
  rewrite (bind_lift _ _ _ _ _ (kwarg_get_or _ _ _ _)).
  unfold get_brand_metrics_by_contract. rewrite AgentProtocol.fetch_state.
  simpl. now rewrite <- app_assoc.
Qed.

Lemma get_brand_metrics_by_contract_defaults_to_ethereum :
  events_of
    (execute_function_call Scenarios.brand_agent "get_brand_metrics_by_contract"
       (JObj [("contract_address",
               JStr "0x73cceed2264de2b72931963dcda56ac5b1249735")]))
    Scenarios.silent start =
    [AgExecute "get_brand_metrics_by_contract"
       (JObj [("contract_address",
               JStr "0x73cceed2264de2b72931963dcda56ac5b1249735")]);
     AgGet (HttpRequest
              [Lit base_url; Lit "/";
               Fmt (Service.get_or "chain_id" (JNum 1)
                      [("contract_address",
                        JStr "0x73cceed2264de2b72931963dcda56ac5b1249735")]);
               Lit "/"; Fmt (JStr "0x73cceed2264de2b72931963dcda56ac5b1249735")]
              [("accept", "application/json");
               ("x-api-key", api_key Scenarios.brand_agent)]
              [("time_range",
                Service.get_or "time_range" (JStr "24h")
                  [("contract_address",
                    JStr "0x73cceed2264de2b72931963dcda56ac5b1249735")])])].
Proof.
  apply (get_brand_metrics_by_contract_puts_chain_and_address_in_the_url
           Scenarios.brand_agent
           [("contract_address", JStr "0x73cceed2264de2b72931963dcda56ac5b1249735")]
           (JStr "0x73cceed2264de2b72931963dcda56ac5b1249735")
           Scenarios.silent start).
  - reflexivity.
  - reflexivity.
Defined.

(** X7.  [get_brand_category_details], called through the dispatcher with
    a category and at most a limit and an offset, sends one GET to
    [<base URL>/category] with the parameters [category], [offset] and
    [limit] in that order; a limit left out is 30, an offset left out
    is 0. *)
Theorem get_brand_category_details_pages_from_zero_by_thirty
    self kw category w s :
  keys_among ["category"; "limit"; "offset"] kw = true ->
  dict_get "category" kw = Some category ->
  events_of
    (execute_function_call self "get_brand_category_details" (JObj kw)) w s =
    [AgExecute "get_brand_category_details" (JObj kw);
     AgGet (HttpRequest [Lit base_url; Lit "/category"]
              [("accept", "application/json"); ("x-api-key", api_key self)]
              [("category", category);
               ("offset", Service.get_or "offset" (JNum 0) kw);
               ("limit", Service.get_or "limit" (JNum 30) kw)])].
Proof.
  intros Hk Hb. apply events_of_appended.
  unfold execute_function_call. rewrite bind_emit. decide_names.
  rewrite (bind_lift _ _ _ _ _ (as_kwargs_keys_among _ _ _ Hk)).
  rewrite (bind_lift _ _ _ _ _ (kwarg_present _ _ _ _ _ Hb)).
  rewrite (bind_lift _ _ _ _ _ (kwarg_get_or _ _ _ _)).
  rewrite (bind_lift _ _ _ _ _ (kwarg_get_or _ _ _ _)).
  unfold get_brand_category_details. rewrite AgentProtocol.fetch_state.
  simpl. now rewrite <- app_assoc.
Qed.

Lemma get_brand_category_details_on_sports :
  events_of
    (execute_function_call Scenarios.brand_agent "get_brand_category_details"
       (JObj [("category", JStr "Sports"); ("limit", JNum 5)]))
    Scenarios.silent start =
    [AgExecute "get_brand_category_details"
       (JObj [("category", JStr "Sports"); ("limit", JNum 5)]);
     AgGet (HttpRequest [Lit base_url; Lit "/category"]
              [("accept", "application/json");
               ("x-api-key", api_key Scenarios.brand_agent)]
              [("category", JStr "Sports");
               ("offset",
                Service.get_or "offset" (JNum 0)
                  [("category", JStr "Sports"); ("limit", JNum 5)]);
               ("limit",
                Service.get_or "limit" (JNum 30)
                  [("category", JStr "Sports"); ("limit", JNum 5)])])].
Proof.
  apply (get_brand_category_details_pages_from_zero_by_thirty
           Scenarios.brand_agent
           [("category", JStr "Sports"); ("limit", JNum 5)] (JStr "Sports")
           Scenarios.silent start).
  - reflexivity.
  - reflexivity.
Defined.

(** The state in which the dispatcher leaves: the call logged, and at
    most one GET after it, addressed as the agent addresses them. *)
Lemma execute_state_cases self name arguments w s :
  snd (execute_function_call self name arguments w s) =
    logged s [AgExecute name arguments] \/
  exists rest params,
    snd (execute_function_call self name arguments w s) =
      MkSt (ds_calls s) (S (http_calls s))
           (log s ++ [AgExecute name arguments;
                      AgGet (HttpRequest (Lit base_url :: rest) (headers self)
                               params)]).
Proof.
  assert (Hf : forall rest params,
             snd (fetch self (Lit base_url :: rest) params w
                    (logged s [AgExecute name arguments])) =
               logged s [AgExecute name arguments] \/
             exists rest' params',
               snd (fetch self (Lit base_url :: rest) params w
                      (logged s [AgExecute name arguments])) =
                 MkSt (ds_calls s) (S (http_calls s))
                      (log s ++ [AgExecute name arguments;
                                 AgGet (HttpRequest (Lit base_url :: rest')
                                          (headers self) params')])).
  { intros rest params. right. exists rest, params.
    rewrite AgentProtocol.fetch_state. simpl. now rewrite <- app_assoc. }
  unfold execute_function_call. rewrite bind_emit.
  destruct (name =? "get_brand_details");
    [|destruct (name =? "get_brand_metrics_by_contract");
      [|destruct (name =? "get_brand_category_details")]];
    repeat (rewrite bind_lift_cases;
            match goal with
            | |- context [match ?r with inr _ => _ | inl _ => _ end] =>
                destruct r; [now left|]
            end);
    try (now left); apply Hf.
Qed.

(** The loop: no decision call, at most one GET per request, each
    addressed as the agent addresses them. *)
Lemma process_tool_calls_trace self calls messages w s :
  exists evs,
    log (snd (process_tool_calls self calls messages w s)) = log s ++ evs /\
    Forall (addressed_by self) evs /\
    ds_calls (snd (process_tool_calls self calls messages w s)) = ds_calls s /\
    http_calls s <= http_calls (snd (process_tool_calls self calls messages w s)) /\
    http_calls (snd (process_tool_calls self calls messages w s)) <=
      http_calls s + length calls.
Proof.
  revert messages s. induction calls as [|tc rest IH]; intros messages s.
  - exists []. simpl. rewrite app_nil_r. repeat split; auto. lia.
  - destruct (tc_arguments tc) as [a|] eqn:Ea.
    2:{ rewrite (process_tool_calls_fault self tc rest messages w s
                   (Exc ValueError "Expecting value: line 1 column 1 (char 0)") s)
          by (unfold dispatch_step; now rewrite Ea).
        exists []. simpl. rewrite app_nil_r. repeat split; auto. lia. }
    assert (Hstep :
              exists evs,
                log (snd (execute_function_call self (tc_name tc) a w s)) =
                  log s ++ evs /\
                Forall (addressed_by self) evs /\
                ds_calls (snd (execute_function_call self (tc_name tc) a w s)) =
                  ds_calls s /\
                http_calls s <=
                  http_calls (snd (execute_function_call self (tc_name tc) a w s)) /\
                http_calls (snd (execute_function_call self (tc_name tc) a w s)) <=
                  S (http_calls s)).
    { destruct (execute_state_cases self (tc_name tc) a w s)
        as [->|(r & p & ->)]; eexists; simpl; repeat split; auto.
      - apply Forall_cons; [exact I|apply Forall_nil].
      - apply Forall_cons; [exact I|].
        apply Forall_cons; [|apply Forall_nil].
        simpl. split; [reflexivity|now exists r]. }
    destruct (execute_function_call self (tc_name tc) a w s) as [[e|v] s1] eqn:Ex;
      simpl in Hstep; destruct Hstep as (evs1 & E1 & F1 & D1 & H1 & H2).
    + rewrite (process_tool_calls_fault self tc rest messages w s e s1)
        by (unfold dispatch_step; rewrite Ea; simpl json_loads;
            unfold bind, ret; now rewrite Ex).
      exists evs1. simpl. repeat split; auto. lia.
    + rewrite (AgentProtocol.process_tool_calls_step self tc rest messages w s
                 a v s1 Ea Ex).
      destruct (IH (messages ++ [MsgTool (tc_id tc) v]) s1)
        as (evs2 & E2 & F2 & D2 & H3 & H4).
      exists (evs1 ++ evs2). rewrite E2, E1, <- app_assoc.
      repeat split; auto; simpl; try lia; try congruence.
      now apply Forall_app.
Qed.

(** Every event of a run of [chat] that is a GET is addressed as the
    agent addresses them. *)
Lemma chat_events_addressed self q w s :
  Forall (addressed_by self) (events_of (chat self q) w s).
Proof.
  pose proof (AgentProtocol.chat_log self q w s) as Hlog.
  destruct (decision_service w (ds_calls s) (round1 q)) as [e|response].
  - rewrite (events_of_appended _ _ _ [AgDecide (round1 q)] Hlog).
    apply Forall_cons; [exact I|apply Forall_nil].
  - destruct (tool_calls response) as [|tc rest].
    + rewrite (events_of_appended _ _ _ [AgDecide (round1 q)] Hlog).
      apply Forall_cons; [exact I|apply Forall_nil].
    + cbv zeta in Hlog.
      destruct (process_tool_calls_trace self (tc :: rest)
                  (initial_messages q ++ [MsgAssistant response]) w
                  (decided s (round1 q))) as (evs & E & F & _).
      rewrite E in Hlog. simpl in Hlog. rewrite <- !app_assoc in Hlog.
      rewrite (events_of_appended _ _ _ _ Hlog).
      apply Forall_app. split; [apply Forall_cons; [exact I|apply Forall_nil]|].
      apply Forall_app. split; [exact F|].
      destruct (fst _); [apply Forall_nil|].
      apply Forall_cons; [exact I|apply Forall_nil].
Qed.

(** X8.  Every GET of a run of [chat] is sent under the base URL of the
    brand API and carries the agent's headers, the API key among them,
    whatever the decision service asked for. *)
Theorem every_get_is_sent_to_the_brand_api_with_the_key self q w s req :
  In (AgGet req) (events_of (chat self q) w s) ->
  hr_headers req =
    [("accept", "application/json"); ("x-api-key", api_key self)] /\
  exists rest, hr_url req = Lit base_url :: rest.
Proof.
  intros Hin. pose proof (chat_events_addressed self q w s) as Hall.
  rewrite Forall_forall in Hall. exact (Hall _ Hin).
Qed.

Lemma the_get_for_starbucks_carries_the_key :
  hr_headers
    (HttpRequest [Lit base_url] (headers Scenarios.brand_agent)
       [("brand", JStr "StarBucks"); ("time_range", JStr "24h")]) =
    [("accept", "application/json");
     ("x-api-key", api_key Scenarios.brand_agent)] /\
  exists rest,
    hr_url
      (HttpRequest [Lit base_url] (headers Scenarios.brand_agent)
         [("brand", JStr "StarBucks"); ("time_range", JStr "24h")]) =
      Lit base_url :: rest.
Proof.
  apply (every_get_is_sent_to_the_brand_api_with_the_key Scenarios.brand_agent
           (JStr "Compare Starbucks and Nike") Scenarios.first_times_out start).
  vm_compute. do 2 right. left. reflexivity.
Defined.

(** X9.  A run of [chat] calls the decision service once or twice, and
    sends at most one GET for each request of the round-1 reply (none when
    the reply asks for no tool or the call fails). *)
Theorem chat_calls_the_decision_service_at_most_twice self q w s :
  ds_calls s < ds_calls (snd (chat self q w s)) /\
  ds_calls (snd (chat self q w s)) <= ds_calls s + 2 /\
  http_calls s <= http_calls (snd (chat self q w s)) /\
  http_calls (snd (chat self q w s)) <=
    http_calls s +
    match decision_service w (ds_calls s) (round1 q) with
    | inr response => length (tool_calls response)
    | inl _ => 0
    end.
Proof.
  rewrite chat_state.
  destruct (decision_service w (ds_calls s) (round1 q)) as [e|response];
    [simpl; lia|].
  destruct (tool_calls response) as [|tc rest]; [simpl; lia|].
  cbv zeta.
  destruct (process_tool_calls_trace self (tc :: rest)
              (initial_messages q ++ [MsgAssistant response]) w
              (decided s (round1 q))) as (evs & _ & _ & D & H1 & H2).
  simpl in D, H1, H2.
  destruct (fst (process_tool_calls self (tc :: rest)
                   (initial_messages q ++ [MsgAssistant response]) w
                   (decided s (round1 q)))); simpl; rewrite ?D; simpl; lia.
Qed.

End AgentRuns.

(* ================================================================== *)
(** ** Further properties of the orchestrator *)
(* ================================================================== *)

Module RoutingRuns.

Import NFTOrchestrator.

(** X10.  A routing call for a name that is none of the nine routing
    functions is answered by the record
    [{"error": "Unknown routing function: <name>"}]: no agent is called,
    nothing is raised, and [format_final_response] shows that record as
    the error line. *)
Theorem unknown_routing_function_is_reported self name arguments w s :
  route_agent name = None ->
  name <> "route_to_both_agents" ->
  execute_routing_call self name arguments w s =
    (inr (unknown_routing_function name), logged s [EvRoute name arguments]) /\
  Service.format_final_response
    [("error", JStr ("Unknown routing function: " ++ name))] =
    [Lit "❌ Error: "; Fmt (JStr ("Unknown routing function: " ++ name))].
Proof.
  intros Hr Hb. split; [|reflexivity].
  apply String.eqb_neq in Hb.
  unfold execute_routing_call. rewrite bind_emit. unfold route_agent in Hr.
  repeat match type of Hr with
         | (if ?n =? ?lit then _ else _) = _ =>
             destruct (n =? lit); [discriminate Hr|]
         end.
  now rewrite Hb.
Qed.

Lemma unknown_routing_function_on_weather :
  execute_routing_call Scenarios.orchestrator "route_to_weather_agent"
      (JObj [("query", JStr "Will it rain?")]) Scenarios.silent start =
    (inr (unknown_routing_function "route_to_weather_agent"),
     logged start
       [EvRoute "route_to_weather_agent" (JObj [("query", JStr "Will it rain?")])]) /\
  Service.format_final_response
    [("error", JStr ("Unknown routing function: " ++ "route_to_weather_agent"))] =
    [Lit "❌ Error: ";
     Fmt (JStr ("Unknown routing function: " ++ "route_to_weather_agent"))].
Proof.
  apply (unknown_routing_function_is_reported Scenarios.orchestrator
           "route_to_weather_agent" (JObj [("query", JStr "Will it rain?")])
           Scenarios.silent start).
  - reflexivity.
  - discriminate.
Defined.

Lemma call_route_run fname a error_prefix agent kw Q R w s :
  keys_among ["query"; "reason"] kw = true ->
  dict_get "query" kw = Some Q ->
  dict_get "reason" kw = Some R ->
  call_route fname (route_to a error_prefix agent) (JObj kw) w s =
    (inr (agent_outcome a error_prefix Q R (fst (agent_run agent Q w s))),
     after_agent a Q s (agent_run agent Q w s)).
Proof.
  intros Hk HQ HR. unfold call_route.
  rewrite (bind_lift _ _ _ _ _ (AgentRuns.as_kwargs_keys_among _ _ _ Hk)).
  rewrite (bind_lift _ _ _ _ _ (AgentRuns.kwarg_present _ _ _ _ _ HQ)).
  rewrite (bind_lift _ _ _ _ _ (AgentRuns.kwarg_present _ _ _ _ _ HR)).
  apply Routing.route_to_run.
Qed.

(** X11.  Each of the eight single-agent routing functions, given a query
    and a reason, calls its own agent with the query and returns an
    outcome, whatever the agent does: the agent's answer under
    ["response"] when it returns, and when it raises, the message of the
    exception under ["error"], behind the words that name that agent.  The
    outcome carries the agent's label, the query and the reason. *)
Theorem each_route_calls_its_own_agent self fname a kw Q R w s :
  route_agent fname = Some a ->
  keys_among ["query"; "reason"] kw = true ->
  dict_get "query" kw = Some Q ->
  dict_get "reason" kw = Some R ->
  execute_routing_call self fname (JObj kw) w s =
    (inr (agent_outcome a (error_prefix_of a) Q R
            (fst (agent_run (agent_of self a) Q w s))),
     after_agent a Q (logged s [EvRoute fname (JObj kw)])
       (agent_run (agent_of self a) Q w s)).
Proof.
  intros Ha Hk HQ HR. unfold route_agent in Ha.
  unfold execute_routing_call. rewrite bind_emit.
  repeat match type of Ha with
         | (if ?n =? ?lit then _ else _) = _ =>
             destruct (n =? lit) eqn:?;
             [injection Ha as <-;
              apply (call_route_run _ _ _ _ kw Q R w
                       (logged s [EvRoute fname (JObj kw)]) Hk HQ HR)
             |]
         end.
  discriminate Ha.
Qed.

Lemma the_brand_route_calls_the_brand_agent :
  execute_routing_call Scenarios.orchestrator "route_to_brand_agent"
      (JObj [("query", JStr "Get brand details for Starbucks");
             ("reason", JStr "The query names a brand")])
      Scenarios.outage start =
    (inr (agent_outcome brand (error_prefix_of brand)
            (JStr "Get brand details for Starbucks")
            (JStr "The query names a brand")
            (fst (agent_run (agent_of Scenarios.orchestrator brand)
                    (JStr "Get brand details for Starbucks")
                    Scenarios.outage start))),
     after_agent brand (JStr "Get brand details for Starbucks")
       (logged start
          [EvRoute "route_to_brand_agent"
             (JObj [("query", JStr "Get brand details for Starbucks");
                    ("reason", JStr "The query names a brand")])])
       (agent_run (agent_of Scenarios.orchestrator brand)
          (JStr "Get brand details for Starbucks") Scenarios.outage start)).
Proof.
  apply (each_route_calls_its_own_agent Scenarios.orchestrator
           "route_to_brand_agent" brand
           [("query", JStr "Get brand details for Starbucks");
            ("reason", JStr "The query names a brand")]
           (JStr "Get brand details for Starbucks")
           (JStr "The query names a brand") Scenarios.outage start).
  - reflexivity.
  - reflexivity.
  - reflexivity.
  - reflexivity.
Defined.

(** X12.  The outcome of the combined operation: both answers when both
    agents return; one error, behind "Both agents error: ", when one of
    them raises.  When the price agent raises, the answer that the gaming
    agent had returned is not part of the outcome.  Nothing is raised. *)
Theorem the_combined_outcome_is_both_answers_or_one_error
    self gq pq reason w s :
  let rg := agent_run (gaming_agent self) gq w s in
  let rp := agent_run (price_agent self) pq w (after_agent gaming gq s rg) in
  fst (route_to_both_agents self gq pq reason w s) =
    inr (JObj
           ([("agent", JStr "both"); ("gaming_query", gq); ("price_query", pq);
             ("reason", reason)] ++
            match fst rg, fst rp with
            | inl e, _ => [("error", JStr ("Both agents error: " ++ exc_str e))]
            | inr _, inl e => [("error", JStr ("Both agents error: " ++ exc_str e))]
            | inr g, inr p =>
                [("gaming_response", of_optional g);
                 ("price_response", of_optional p)]
            end)).
Proof.
  intros rg rp. subst rg rp.
  unfold route_to_both_agents, try_except, bind at 1.
  rewrite Routing.call_agent_run.
  destruct (fst (agent_run (gaming_agent self) gq w s)) as [e|g]; [reflexivity|].
  rewrite bind_emit. unfold bind at 1. rewrite Routing.call_agent_run.
  change (agent_run (price_agent self) pq w
            (logged (after_agent gaming gq s (agent_run (gaming_agent self) gq w s))
                    [EvSleep 1]))
    with (agent_run (price_agent self) pq w
            (after_agent gaming gq s (agent_run (gaming_agent self) gq w s))).
  now destruct (fst (agent_run (price_agent self) pq w
                       (after_agent gaming gq s
                          (agent_run (gaming_agent self) gq w s)))).
Qed.

Lemma lift_kwargs_rejects {A} fname params arguments (k : dict -> OM A) w st :
  (forall kw, arguments = JObj kw -> unexpected_keyword params kw = None ->
              exists e, k kw w st = (inl e, st) /\ exc_class_of e = TypeError) ->
  exists e,
    bind (lift (as_kwargs fname params arguments)) k w st = (inl e, st) /\
    exc_class_of e = TypeError.
Proof.
  intros Hk. rewrite bind_lift_cases.
  destruct (as_kwargs fname params arguments) as [e|kw] eqn:Ekw.
  - exists e. split; [reflexivity|].
    now apply (AgentRuns.as_kwargs_raises_type_error _ _ _ _ Ekw).
  - unfold as_kwargs in Ekw. destruct arguments as [| | | |?|kw']; try discriminate.
    destruct (unexpected_keyword params kw') eqn:Eu; [discriminate|].
    injection Ekw as <-. now apply Hk.
Qed.

(** Binding required parameters one after the other: when one of them has
    no key, the call raises a [TypeError]. *)
Lemma lift_required_rejects {A} fname p (kw : dict) (k : json -> OM A) w st :
  (forall v, dict_get p kw = Some v ->
             exists e, k v w st = (inl e, st) /\ exc_class_of e = TypeError) \/
  has_key p kw = false ->
  exists e,
    bind (lift (kwarg fname p None kw)) k w st = (inl e, st) /\
    exc_class_of e = TypeError.
Proof.
  intros H. rewrite bind_lift_cases. unfold kwarg, has_key in *.
  destruct (dict_get p kw) as [v|].
  - destruct H as [H|H]; [now apply H|discriminate].
  - eexists. split; reflexivity.
Qed.

(** X13.  For each of the nine routing functions, arguments that do not
    follow its declared schema (not a dict, a key that is no declared
    parameter, a required parameter left out) make the call raise a
    [TypeError] through [execute_routing_call], before any agent is
    called. *)
Theorem execute_routing_call_rejects_other_arguments self td arguments w s :
  In td routing_tools ->
  conforms td arguments = false ->
  exists e,
    execute_routing_call self (td_name td) arguments w s =
      (inl e, logged s [EvRoute (td_name td) arguments]) /\
    exc_class_of e = TypeError.
Proof.
  intros Htd Hc.
  assert (Hsingle : forall fname route,
             conforms (single_route fname) arguments = false ->
             exists e,
               call_route fname route arguments w
                 (logged s [EvRoute fname arguments]) =
                 (inl e, logged s [EvRoute fname arguments]) /\
               exc_class_of e = TypeError).
  { intros fname route Hs. unfold call_route.
    apply lift_kwargs_rejects. intros kw -> Hu.
    simpl in Hs. apply andb_false_iff in Hs. destruct Hs as [Hs|Hs].
    - destruct (AgentRuns.unexpected_keyword_some ["query"; "reason"]
                  ["query"; "reason"] kw) as (k & Hk); auto. congruence.
    - rewrite andb_true_r in Hs. apply andb_false_iff in Hs.
      apply lift_required_rejects. destruct Hs as [Hs|Hs]; [now right|].
      left. intros Q _. apply lift_required_rejects. now right. }
  simpl in Htd.
  repeat (destruct Htd as [<-|Htd];
          [unfold execute_routing_call; rewrite bind_emit; cbn [td_name single_route];
           decide_names; now apply Hsingle|]).
  destruct Htd as [<-|[]].
  unfold execute_routing_call. rewrite bind_emit. cbn [td_name]. decide_names.
  apply lift_kwargs_rejects. intros kw -> Hu.
  simpl in Hc. apply andb_false_iff in Hc. destruct Hc as [Hc|Hc].
  - destruct (AgentRuns.unexpected_keyword_some
                ["gaming_query"; "price_query"; "reason"]
                ["gaming_query"; "price_query"; "reason"] kw) as (k & Hk); auto.
    congruence.
  - rewrite andb_true_r in Hc. apply andb_false_iff in Hc.
    apply lift_required_rejects. destruct Hc as [Hc|Hc]; [now right|].
    left. intros gq _. apply andb_false_iff in Hc.
    apply lift_required_rejects. destruct Hc as [Hc|Hc]; [now right|].
    left. intros pq _. apply lift_required_rejects. now right.
Qed.

Lemma a_route_without_reason_is_rejected :
  exists e,
    execute_routing_call Scenarios.orchestrator
        (td_name (single_route "route_to_brand_agent"))
        (JObj [("query", JStr "Get brand details for Starbucks")])
        Scenarios.silent start =
      (inl e,
       logged start
         [EvRoute (td_name (single_route "route_to_brand_agent"))
            (JObj [("query", JStr "Get brand details for Starbucks")])]) /\
    exc_class_of e = TypeError.
Proof.
  apply (execute_routing_call_rejects_other_arguments Scenarios.orchestrator
           (single_route "route_to_brand_agent")
           (JObj [("query", JStr "Get brand details for Starbucks")])
           Scenarios.silent start).
  - simpl. auto.
  - reflexivity.
Defined.

Lemma process_routing_calls_app self pre post messages results w s :
  process_routing_calls self (pre ++ post) messages results w s =
    bind (process_routing_calls self pre messages results)
         (fun looped => process_routing_calls self post (fst looped) (snd looped))
         w s.
Proof.
  revert messages results s.
  induction pre as [|tc pre IH]; intros messages results s.
  - reflexivity.
  - simpl. unfold bind in *.
    destruct (json_loads (tc_arguments tc) w s) as [[e|a] s1]; [reflexivity|].
    destruct (execute_routing_call self (tc_name tc) a w s1) as [[e|v] s2];
      [reflexivity|].
    apply IH.
Qed.

Lemma process_routing_calls_fault self tc rest messages results w s e s2 :
  routing_step self tc w s = (inl e, s2) ->
  process_routing_calls self (tc :: rest) messages results w s = (inl e, s2).
Proof.
  unfold routing_step. simpl. unfold bind.
  destruct (json_loads (tc_arguments tc) w s) as [[e1|a] s1]; [congruence|].
  destruct (execute_routing_call self (tc_name tc) a w s1) as [[e1|v] s3];
    [congruence|discriminate].
Qed.

(** X14.  A routing call that raises, because its arguments are not JSON
    or do not fit the routing function, ends the run of the orchestrator:
    the routing calls before it have run their agents, the routing calls
    after it are not executed, the orchestrator makes no second call to the
    decision service, and [chat] returns "An error occurred: " followed by
    the message of that exception. *)
Theorem a_fault_in_the_routing_ends_the_run
    self q w s response pre tc post looped s1 e s2 :
  decision_service w (ds_calls s) (routing_round q) = inr response ->
  tool_calls response = pre ++ tc :: post ->
  process_routing_calls self pre
    (NFTOrchestrator.initial_messages q ++ [MsgAssistant response]) [] w
    (routed s (routing_round q)) = (inr looped, s1) ->
  routing_step self tc w s1 = (inl e, s2) ->
  chat self q w s = (inr (error_text e), s2) /\
  routing_decisions (events_of (chat self q) w s) = 1.
Proof.
  intros Hds Hcalls Hpre Hstep.
  assert (Hloop :
            process_routing_calls self (tool_calls response)
              (NFTOrchestrator.initial_messages q ++ [MsgAssistant response]) [] w
              (routed s (routing_round q)) = (inl e, s2)).
  { rewrite Hcalls, process_routing_calls_app.
    rewrite (bind_inr _ _ _ _ _ _ Hpre).
    now apply process_routing_calls_fault. }
  split.
  - unfold chat, try_except, bind at 1, completions_create at 1.
    fold (routing_round q). fold (routed s (routing_round q)). rewrite Hds.
    destruct (tool_calls response) as [|x l] eqn:Ex; [now destruct pre|].
    unfold bind at 1. now rewrite Hloop.
  - pose proof (Routing.orchestrator_chat_log self q w s) as Hlog.
    rewrite Hds in Hlog.
    destruct (tool_calls response) as [|x l] eqn:Ex; [now destruct pre|].
    cbv zeta in Hlog.
    destruct (Routing.process_routing_calls_shape self (x :: l)
                (NFTOrchestrator.initial_messages q ++ [MsgAssistant response]) []
                w (routed s (routing_round q))) as [(evs & Hevs & _ & Hq) _].
    rewrite Hloop in Hlog, Hevs. simpl in Hlog, Hevs.
    rewrite app_nil_r, Hevs, <- app_assoc in Hlog.
    rewrite (events_of_appended _ _ _ _ Hlog).
    unfold routing_decisions. simpl.
    assert (Hf : filter is_routing_decide evs = []).
    { clear - Hq. induction evs as [|x evs IH]; [reflexivity|].
      simpl in *. apply orb_false_elim in Hq. destruct Hq as [-> Hq]. auto. }
    now rewrite Hf.
Qed.

Lemma a_route_without_reason_ends_the_run :
  chat Scenarios.orchestrator "Compare Nike and Adidas"
       (scripted
          [inr (Completion None
                  [Scenarios.route_to_brand "r1" "Nike";
                   ToolCall "r2" "route_to_brand_agent"
                     (Some (JObj [("query", JStr "Get brand details for Adidas")]))]);
           inr (Completion (Some "Nike is a sportswear brand.") [])]
          [])
       start =
    (inr (error_text
            (Exc TypeError
               "route_to_brand_agent() missing 1 required positional argument: 'reason'")),
     snd (chat Scenarios.orchestrator "Compare Nike and Adidas"
            (scripted
               [inr (Completion None
                       [Scenarios.route_to_brand "r1" "Nike";
                        ToolCall "r2" "route_to_brand_agent"
                          (Some (JObj [("query",
                                        JStr "Get brand details for Adidas")]))]);
                inr (Completion (Some "Nike is a sportswear brand.") [])]
               [])
            start)) /\
  routing_decisions
    (events_of (chat Scenarios.orchestrator "Compare Nike and Adidas")
       (scripted
          [inr (Completion None
                  [Scenarios.route_to_brand "r1" "Nike";
                   ToolCall "r2" "route_to_brand_agent"
                     (Some (JObj [("query", JStr "Get brand details for Adidas")]))]);
           inr (Completion (Some "Nike is a sportswear brand.") [])]
          [])
       start) = 1.
Proof.
  eapply (a_fault_in_the_routing_ends_the_run Scenarios.orchestrator
            "Compare Nike and Adidas"
            (scripted
               [inr (Completion None
                       [Scenarios.route_to_brand "r1" "Nike";
                        ToolCall "r2" "route_to_brand_agent"
                          (Some (JObj [("query",
                                        JStr "Get brand details for Adidas")]))]);
                inr (Completion (Some "Nike is a sportswear brand.") [])]
               [])
            start
            (Completion None
               [Scenarios.route_to_brand "r1" "Nike";
                ToolCall "r2" "route_to_brand_agent"
                  (Some (JObj [("query", JStr "Get brand details for Adidas")]))])
            [Scenarios.route_to_brand "r1" "Nike"]
            (ToolCall "r2" "route_to_brand_agent"
               (Some (JObj [("query", JStr "Get brand details for Adidas")])))
            []).
  - reflexivity.
  - reflexivity.
  - reflexivity.
  - reflexivity.
Defined.

(** The orchestrator's [chat] on a reply that asks for no routing. *)
Lemma orchestrator_chat_on_direct_reply self q w s reply :
  decision_service w (ds_calls s) (routing_round q) = inr (Completion reply []) ->
  fst (chat self q w s) =
    inr (match reply with
         | Some text => Some text
         | None => if verbose self then error_text no_len else None
         end).
Proof.
  intros H. unfold chat, try_except, bind at 1, completions_create.
  fold (routing_round q). rewrite H. simpl.
  unfold bind, when_verbose, report_length, lift, ret.
  destruct reply, (verbose self); reflexivity.
Qed.

(** X15.  The orchestrator itself calls the decision service once or
    twice in a run of [chat]: first with the nine routing functions on
    offer, and then, if at all, with no function on offer. *)
Theorem the_orchestrator_decides_at_most_twice self q w s :
  1 <= routing_decisions (events_of (chat self q) w s) /\
  routing_decisions (events_of (chat self q) w s) <= 2 /\
  exists evs,
    events_of (chat self q) w s =
      EvDecide (DsRequest (NFTOrchestrator.initial_messages q) (Some routing_tools))
        :: evs /\
    forall req, In (EvDecide req) evs -> dr_tools req = None.
Proof.
  assert (Hf : forall evs, existsb is_routing_decide evs = false ->
                           filter is_routing_decide evs = []).
  { induction evs as [|x evs IH]; [reflexivity|]. simpl. intros Hq.
    apply orb_false_elim in Hq. destruct Hq as [-> Hq]. auto. }
  assert (Hcount : 1 <= routing_decisions (events_of (chat self q) w s) /\
                   routing_decisions (events_of (chat self q) w s) <= 2).
  { pose proof (Routing.orchestrator_chat_log self q w s) as Hlog.
    unfold routing_decisions.
    destruct (decision_service w (ds_calls s) (routing_round q)) as [e|response].
    - rewrite (events_of_appended _ _ _ [EvDecide (routing_round q)] Hlog).
      simpl. lia.
    - destruct (tool_calls response) as [|tc rest].
      + rewrite (events_of_appended _ _ _ [EvDecide (routing_round q)] Hlog).
        simpl. lia.
      + cbv zeta in Hlog.
        destruct (Routing.process_routing_calls_shape self (tc :: rest)
                    (NFTOrchestrator.initial_messages q ++ [MsgAssistant response])
                    [] w (routed s (routing_round q))) as [(evs & E & _ & Hq) _].
        rewrite E in Hlog. simpl in Hlog. rewrite <- !app_assoc in Hlog.
        rewrite (events_of_appended _ _ _ _ Hlog).
        simpl. rewrite filter_app, (Hf _ Hq). simpl.
        destruct (fst _); simpl; lia. }
  destruct Hcount as [H1 H2]. split; [exact H1|]. split; [exact H2|].
  destruct (Routing.orchestrator_chat_events self q w s) as (evs & E & _ & Hevs).
  exists evs. split; [exact E|].
  intros req Hin. destruct (Hevs req Hin) as (response & turns & _ & -> & _).
  reflexivity.
Qed.

End RoutingRuns.

(* ================================================================== *)
(** ** Further properties of the endpoint, the shared instance, the
       constructor and the formatted answer *)
(* ================================================================== *)

Module ServiceRuns.

Import NFTOrchestrator Api.

(** X16.  When the routing reply has neither content nor routing calls,
    the outcome of [POST /chat] depends on the [verbose] flag of the
    request: a verbose request is answered with [success=true] and the
    text of the [TypeError] that [len(None)] raised inside [chat]; a quiet
    request, for which [chat] returns [None], is answered with
    [success=false]. *)
Theorem a_reply_without_content_fails_quiet_requests_only o request w s :
  decision_service w (ds_calls s) (routing_round (message request)) =
    inr (Completion None []) ->
  fst (chat_endpoint (inr o) request w s) =
    inr (if req_verbose request
         then answered request
                "An error occurred: object of type 'NoneType' has no len()"
         else failed request not_iterable).
Proof.
  intros H.
  pose proof (RoutingRuns.orchestrator_chat_on_direct_reply
                (set_verbose o (req_verbose request)) (message request) w s None H)
    as Hc.
  rewrite (Endpoint.chat_endpoint_on_instance o request w s _ Hc).
  simpl. now destruct (req_verbose request).
Qed.

Lemma a_quiet_request_fails_on_a_reply_without_content :
  fst (chat_endpoint (inr Scenarios.orchestrator)
         {| message := "Hello"; req_verbose := false |}
         (scripted [inr (Completion None [])] []) start) =
    inr (if req_verbose {| message := "Hello"; req_verbose := false |}
         then answered {| message := "Hello"; req_verbose := false |}
                "An error occurred: object of type 'NoneType' has no len()"
         else failed {| message := "Hello"; req_verbose := false |} not_iterable).
Proof.
  apply (a_reply_without_content_fails_quiet_requests_only
           Scenarios.orchestrator {| message := "Hello"; req_verbose := false |}
           (scripted [inr (Completion None [])] []) start).
  reflexivity.
Defined.

Lemma classify_label text :
  In (fst (classify text)) labels /\ fst (classify text) <> "error".
Proof.
  unfold classify, labels.
  repeat match goal with
         | |- context [if ?b then _ else _] => destruct b
         end;
    (split; [simpl; tauto|discriminate]).
Qed.

(** X17.  [POST /chat] always answers, and its answer is of one of two
    shapes.  With [success=true] it has no [error] and a label other than
    "error"; with [success=false] it has an empty [response], the label
    "error" and an [error].  In both it repeats the message of the request
    as [query], and its label is one of eleven fixed words. *)
Theorem chat_endpoint_answers_in_one_of_two_shapes g request w s :
  exists r,
    fst (chat_endpoint g request w s) = inr r /\
    query r = message request /\
    In (agent_used r) labels /\
    (success r = true /\ error r = None /\ agent_used r <> "error" \/
     success r = false /\ response r = "" /\ agent_used r = "error" /\
     exists text, error r = Some text).
Proof.
  assert (Hfailed : forall e,
             query (failed request e) = message request /\
             In (agent_used (failed request e)) labels /\
             (success (failed request e) = true /\ error (failed request e) = None /\
              agent_used (failed request e) <> "error" \/
              success (failed request e) = false /\
              response (failed request e) = "" /\
              agent_used (failed request e) = "error" /\
              exists text, error (failed request e) = Some text)).
  { intros e. split; [reflexivity|]. split; [simpl; tauto|].
    right. split; [reflexivity|]. split; [reflexivity|].
    split; [reflexivity|]. now exists (exc_str e). }
  destruct g as [e|o].
  - exists (failed request e). split; [reflexivity|]. apply Hfailed.
  - destruct (Endpoint.orchestrator_chat_returns
                (set_verbose o (req_verbose request)) (message request) w s)
      as (r & Hr).
    rewrite (Endpoint.chat_endpoint_on_instance o request w s r Hr).
    destruct r as [text|]; eexists; (split; [reflexivity|]);
      [|apply Hfailed].
    destruct (classify_label text) as [Hin Hne].
    split; [reflexivity|]. split; [exact Hin|]. left.
    split; [reflexivity|]. split; [reflexivity|exact Hne].
Qed.

(** X18.  [get_orchestrator] keeps the first instance: once a call has
    returned an instance, a later call returns that same instance whatever
    the constructor would do by then.  A call that raises leaves no
    instance behind, so that the next call constructs again; it raises an
    [HTTPException] with status 500 and the detail "Failed to initialize
    orchestrator: ..." for a [ValueError] of the constructor, and lets
    every other exception through as it is. *)
Theorem get_orchestrator_keeps_the_first_instance construct instance :
  (forall o later,
      fst (Service.get_orchestrator construct instance) = inr o ->
      Service.get_orchestrator later
        (snd (Service.get_orchestrator construct instance)) = (inr o, Some o)) /\
  (forall r,
      fst (Service.get_orchestrator construct instance) = inl r ->
      snd (Service.get_orchestrator construct instance) = None /\
      exists e,
        construct = inl e /\
        r = match exc_class_of e with
            | ValueError =>
                Service.HTTPError 500
                  ("Failed to initialize orchestrator: " ++ exc_str e)
            | _ => Service.Uncaught e
            end).
Proof.
  unfold Service.get_orchestrator. split.
  - intros o later.
    destruct instance as [i|]; [now intros [= ->]|].
    destruct construct as [e|i]; [|now intros [= ->]].
    now destruct (exc_class_of e).
  - intros r.
    destruct instance as [i|]; [discriminate|].
    destruct construct as [e|i]; [|discriminate].
    destruct (exc_class_of e) eqn:Ec; intros [= <-]; (split; [reflexivity|]);
      exists e; now rewrite Ec.
Qed.

Lemma get_orchestrator_outlives_the_environment :
  Service.get_orchestrator
    (inl (Exc ValueError "OPENAI_API_KEY not found in .env file"))
    (snd (Service.get_orchestrator (inr Scenarios.orchestrator) None)) =
    (inr Scenarios.orchestrator, Some Scenarios.orchestrator).
Proof.
  apply (proj1 (get_orchestrator_keeps_the_first_instance
                  (inr Scenarios.orchestrator) None)).
  reflexivity.
Defined.

Lemma init_returns OpenAI getenv verbose_flag self :
  Construction.init OpenAI getenv verbose_flag = inr self ->
  exists openai_key unleash_key,
    getenv "OPENAI_API_KEY" = Some openai_key /\ openai_key <> "" /\
    getenv "UNLEASH_NFTS_API_KEY" = Some unleash_key /\ unleash_key <> "" /\
    OpenAI openai_key = inr tt /\
    self = NFTBrandAgent.Agent unleash_key verbose_flag.
Proof.
  unfold Construction.init, Construction.falsy, Construction.text_of.
  destruct (getenv "OPENAI_API_KEY") as [k1|]; [|discriminate].
  destruct (k1 =? "") eqn:N1; [discriminate|].
  destruct (getenv "UNLEASH_NFTS_API_KEY") as [k2|]; [|discriminate].
  destruct (k2 =? "") eqn:N2; [discriminate|].
  destruct (OpenAI k1) as [e|[]] eqn:C; [discriminate|].
  intros [= <-]. apply String.eqb_neq in N1, N2. exists k1, k2. now repeat split.
Qed.

Lemma init_without_openai_key OpenAI getenv verbose_flag :
  getenv "OPENAI_API_KEY" = None \/ getenv "OPENAI_API_KEY" = Some "" ->
  Construction.init OpenAI getenv verbose_flag =
    inl (Exc ValueError "OPENAI_API_KEY not found in .env file").
Proof.
  unfold Construction.init. now intros [-> | ->].
Qed.

Lemma init_with_openai_key OpenAI getenv verbose_flag openai_key :
  getenv "OPENAI_API_KEY" = Some openai_key -> openai_key <> "" ->
  Construction.init OpenAI getenv verbose_flag =
    if Construction.falsy (getenv "UNLEASH_NFTS_API_KEY") then
      inl (Exc ValueError "UNLEASH_NFTS_API_KEY not found in .env file")
    else
      match OpenAI openai_key with
      | inl e => inl e
      | inr _ =>
          inr (NFTBrandAgent.Agent
                 (Construction.text_of (getenv "UNLEASH_NFTS_API_KEY"))
                 verbose_flag)
      end.
Proof.
  intros E N. apply String.eqb_neq in N.
  unfold Construction.init. rewrite E. simpl. now rewrite N.
Qed.

(** X19.  [NFTBrandAgent.__init__] tests the OpenAI key first: when that
    key is not set, or set to the empty text, the [ValueError] names it,
    whatever the analytics key is.  With the OpenAI key set, a missing or
    empty analytics key gives the [ValueError] that names the analytics
    key.  With both set, the outcome is that of the constructor of the
    client, called on the OpenAI key: its exception, or the agent that
    holds the analytics key.  So the constructor returns an agent exactly
    when both keys are set to a non-empty text and the client is
    constructed. *)
Theorem init_needs_both_keys OpenAI getenv verbose_flag :
  (getenv "OPENAI_API_KEY" = None \/ getenv "OPENAI_API_KEY" = Some "" ->
   Construction.init OpenAI getenv verbose_flag =
     inl (Exc ValueError "OPENAI_API_KEY not found in .env file")) /\
  (forall openai_key,
      getenv "OPENAI_API_KEY" = Some openai_key -> openai_key <> "" ->
      (getenv "UNLEASH_NFTS_API_KEY" = None \/
       getenv "UNLEASH_NFTS_API_KEY" = Some "" ->
       Construction.init OpenAI getenv verbose_flag =
         inl (Exc ValueError "UNLEASH_NFTS_API_KEY not found in .env file")) /\
      (forall unleash_key,
          getenv "UNLEASH_NFTS_API_KEY" = Some unleash_key ->
          unleash_key <> "" ->
          (forall e,
              OpenAI openai_key = inl e ->
              Construction.init OpenAI getenv verbose_flag = inl e) /\
          (OpenAI openai_key = inr tt ->
           Construction.init OpenAI getenv verbose_flag =
             inr (NFTBrandAgent.Agent unleash_key verbose_flag)))) /\
  (forall self,
      Construction.init OpenAI getenv verbose_flag = inr self ->
      exists openai_key unleash_key,
        getenv "OPENAI_API_KEY" = Some openai_key /\ openai_key <> "" /\
        getenv "UNLEASH_NFTS_API_KEY" = Some unleash_key /\
        unleash_key <> "" /\
        OpenAI openai_key = inr tt /\
        self = NFTBrandAgent.Agent unleash_key verbose_flag).
Proof.
  split; [apply init_without_openai_key|].
  split; [|apply init_returns].
  intros k1 E1 N1.
  rewrite (init_with_openai_key OpenAI getenv verbose_flag k1 E1 N1).
  split; [now intros [-> | ->]|].
  intros k2 E2 N2. apply String.eqb_neq in N2. rewrite E2. simpl. rewrite N2.
  split; [now intros e ->|now intros ->].
Qed.

Lemma the_openai_key_is_named_when_no_key_is_set :
  Construction.init client_constructed no_keys true =
    inl (Exc ValueError "OPENAI_API_KEY not found in .env file").
Proof.
  apply (proj1 (init_needs_both_keys client_constructed no_keys true)).
  left. reflexivity.
Defined.

(** X20.  An agent constructed from the environment sends every GET of
    every run of [chat] with the analytics key of that environment in the
    [x-api-key] header. *)
Theorem a_constructed_agent_sends_the_key_of_the_environment
    OpenAI getenv verbose_flag self q w s req :
  Construction.init OpenAI getenv verbose_flag = inr self ->
  In (AgGet req) (events_of (NFTBrandAgent.chat self q) w s) ->
  exists key,
    getenv "UNLEASH_NFTS_API_KEY" = Some key /\ key <> "" /\
    In ("x-api-key", key) (hr_headers req).
Proof.
  intros Hinit Hin.
  destruct (init_returns OpenAI getenv verbose_flag self Hinit)
    as (k1 & k2 & _ & _ & E2 & N2 & _ & ->).
  pose proof (AgentRuns.chat_events_addressed
                (NFTBrandAgent.Agent k2 verbose_flag) q w s) as Hall.
  rewrite Forall_forall in Hall. destruct (Hall _ Hin) as [Hh _].
  exists k2. split; [exact E2|]. split; [exact N2|].
  rewrite Hh. simpl. auto.
Qed.

Lemma the_key_of_dotenv_is_sent :
  exists key,
    dotenv "UNLEASH_NFTS_API_KEY" = Some key /\ key <> "" /\
    In ("x-api-key", key)
       (hr_headers
          (HttpRequest [Lit NFTBrandAgent.base_url]
             (NFTBrandAgent.headers Scenarios.brand_agent)
             [("brand", JStr "StarBucks"); ("time_range", JStr "24h")])).
Proof.
  apply (a_constructed_agent_sends_the_key_of_the_environment
           client_constructed dotenv true
           Scenarios.brand_agent (JStr "Compare Starbucks and Nike")
           Scenarios.first_times_out start).
  - reflexivity.
  - vm_compute. do 2 right. left. reflexivity.
Defined.

Lemma agent_is_label (d : dict) name :
  Service.agent_is d name = true -> dict_get "agent" d = Some (JStr name).
Proof.
  unfold Service.agent_is. destruct (dict_get "agent" d) as [[| | |l| |]|];
    try discriminate.
  intros H. apply String.eqb_eq in H. now subst.
Qed.

(** X21.  [format_final_response] on the outcome of a single-agent
    routing function: each agent has one title and one closing line, the
    same for every query, reason, answer and exception, and the answer of
    the agent is framed by them; for the outcome of an agent that raised,
    the same frame holds "No response available", and the message of the
    exception, which the outcome carries under ["error"], is not shown. *)
Theorem format_final_response_frames_the_answer_and_drops_the_error a :
  exists title closing,
    forall Q R text e,
      Service.format_final_response
        [("agent", JStr (agent_label a)); ("query", Q); ("reason", R);
         ("response", of_optional text)] =
        [Lit title; Fmt (of_optional text); Lit closing] /\
      Service.format_final_response
        [("agent", JStr (agent_label a)); ("query", Q); ("reason", R);
         ("error", JStr (error_prefix_of a ++ exc_str e))] =
        [Lit title; Fmt (JStr "No response available"); Lit closing].
Proof.
  destruct a; eexists; eexists; intros Q R text e; split; reflexivity.
Qed.

Lemma prefix_app (n a b : string) :
  String.prefix n a = true -> String.prefix n (a ++ b) = true.
Proof.
  revert a. induction n as [|c n IH]; intros a H;
    [now destruct (a ++ b)%string|].
  destruct a as [|c' a]; [discriminate|]. simpl in *.
  destruct (Ascii.ascii_dec c c'); [now apply IH|discriminate].
Qed.

Lemma contains_app (n a b : string) :
  contains n a = true -> contains n (a ++ b) = true.
Proof.
  induction a as [|c a IH]; intros H.
  - destruct n; [now destruct b|discriminate].
  - cbn [contains] in H. destruct (String.prefix n (String c a)) eqn:E.
    + change (String c a ++ b)%string with (String c (a ++ b)).
      cbn [contains].
      change (String c (a ++ b)) with (String c a ++ b)%string.
      now rewrite (prefix_app _ _ b E).
    + change (String c a ++ b)%string with (String c (a ++ b)).
      cbn [contains]. rewrite (IH H).
      now destruct (String.prefix n (String c (a ++ b))).
Qed.

Lemma fstring_text_opens (title : string) parts text :
  Service.fstring_text (Lit title :: parts) = Some text ->
  exists tail, text = (title ++ tail)%string.
Proof.
  simpl. destruct (Service.fstring_text parts) as [tail|]; [|discriminate].
  intros [= <-]. now exists tail.
Qed.

(** X22.  A text in the combined format of [format_final_response] is
    labelled "gaming" by the chain of tests of [POST /chat], never
    "multiple": its second line holds the game pad and "Gaming", and the
    gaming test comes first. *)
Theorem the_combined_format_is_labelled_gaming routing_result text :
  Service.agent_is routing_result "both" = true ->
  Service.fstring_text (Service.format_final_response routing_result) = Some text ->
  classify text = ("gaming", "Query routed to NFT Gaming Agent").
Proof.
  intros Hboth Htext. unfold Service.format_final_response in Htext.
  rewrite Hboth in Htext. cbv zeta in Htext.
  destruct (fstring_text_opens _ _ _ Htext) as (tail & ->).
  unfold classify.
  rewrite (contains_app "🎮" _ tail) by reflexivity.
  now rewrite (contains_app "Gaming" _ tail) by reflexivity.
Qed.

Lemma the_combined_answer_of_two_agents_is_labelled_gaming :
  classify
    (Service.lines
       ["🤖 **Multi-Agent Response**"; ""; "🎮 **Gaming Metrics:**";
        "Axie has 12 players."; ""; "💰 **Price Estimation:**";
        "The floor is 2 ETH."; ""; "---";
        "*This response combines data from both the NFT Gaming Agent and NFT Price Estimation Agent.*"]) =
    ("gaming", "Query routed to NFT Gaming Agent").
Proof.
  apply (the_combined_format_is_labelled_gaming
           [("agent", JStr "both"); ("gaming_query", JStr "players of Axie");
            ("price_query", JStr "floor of Axie"); ("reason", JStr "both");
            ("gaming_response", JStr "Axie has 12 players.");
            ("price_response", JStr "The floor is 2 ETH.")]).
  - reflexivity.
  - reflexivity.
Defined.

End ServiceRuns.

(* ================================================================== *)
(** ** Properties of the gaming agent's handlers *)
(* ================================================================== *)

Module GamingRuns.

Import NFTGamingAgent.

Lemma gaming_fetch_state self url params w s :
  snd (fetch self url params w s) =
    MkSt (ds_calls s) (S (http_calls s))
         (log s ++ [AgGet (HttpRequest url (headers self) params)]).
Proof.
  unfold fetch, try_except_request, bind, requests_get, when_verbose, lift, ret.
  destruct (collaborator w (http_calls s) (HttpRequest url (headers self) params))
    as [e|body]; simpl.
  - now destruct (is_request_exception e).
  - destruct (verbose self);
      [destruct (NFTBrandAgent.report_items body) as [e|[]]|]; simpl;
      try reflexivity.
    now destruct (is_request_exception e).
Qed.

Section Lowercase.

Variable lower : string -> string.

(** X23.  [get_game_contracts_info] needs no argument.  Called through
    the dispatcher, it sends one GET to [<base URL>/metrics] with the
    offset (0 when left out), the limit (30 when left out) and the fixed
    sorting "game", "desc"; the blockchain is sent, as the last parameter,
    only when it is given and is not empty. *)
Theorem get_game_contracts_info_sends_a_blockchain_only_when_given self kw w s :
  keys_among ["limit"; "offset"; "blockchain"] kw = true ->
  events_of (execute_function_call lower self "get_game_contracts_info" (JObj kw))
            w s =
    [AgExecute "get_game_contracts_info" (JObj kw);
     AgGet (HttpRequest [Lit base_url; Lit "/metrics"]
              [("accept", "application/json"); ("x-api-key", api_key self)]
              ([("offset", Service.get_or "offset" (JNum 0) kw);
                ("limit", Service.get_or "limit" (JNum 30) kw);
                ("sort_by", JStr "game"); ("sort_order", JStr "desc")] ++
               if truthy (Service.get_or "blockchain" JNull kw)
               then [("blockchain", Service.get_or "blockchain" JNull kw)]
               else []))].
Proof.
  intros Hk. apply events_of_appended.
  unfold execute_function_call. rewrite bind_emit. decide_names.
  rewrite (bind_lift _ _ _ _ _ (AgentRuns.as_kwargs_keys_among _ _ _ Hk)).
  rewrite (bind_lift _ _ _ _ _ (AgentRuns.kwarg_get_or _ _ _ _)).
  rewrite (bind_lift _ _ _ _ _ (AgentRuns.kwarg_get_or _ _ _ _)).
  rewrite (bind_lift _ _ _ _ _ (AgentRuns.kwarg_get_or _ _ _ _)).
  unfold get_game_contracts_info. rewrite gaming_fetch_state.
  simpl. rewrite <- app_assoc.
  now destruct (truthy (Service.get_or "blockchain" JNull kw)).
Qed.

(** X24.  [get_nft_gaming_metrics_by_contract], called through the
    dispatcher with a contract address, sends one GET to
    [<base URL>/contract/metrics] with the blockchain ("ethereum" when left
    out), the address, the time range ("24h"), the offset (0), the limit
    (30) and the fixed sorting "total_users", "desc", in that order. *)
Theorem get_nft_gaming_metrics_by_contract_sorts_by_total_users
    self kw address w s :
  keys_among ["contract_address"; "blockchain"; "time_range"; "limit"; "offset"] kw
    = true ->
  dict_get "contract_address" kw = Some address ->
  events_of
    (execute_function_call lower self "get_nft_gaming_metrics_by_contract" (JObj kw))
    w s =
    [AgExecute "get_nft_gaming_metrics_by_contract" (JObj kw);
     AgGet (HttpRequest [Lit base_url; Lit "/contract/metrics"]
              [("accept", "application/json"); ("x-api-key", api_key self)]
              [("blockchain", Service.get_or "blockchain" (JStr "ethereum") kw);
               ("contract_address", address);
               ("time_range", Service.get_or "time_range" (JStr "24h") kw);
               ("offset", Service.get_or "offset" (JNum 0) kw);
               ("limit", Service.get_or "limit" (JNum 30) kw);
               ("sort_by", JStr "total_users"); ("sort_order", JStr "desc")])].
Proof.
  intros Hk Ha. apply events_of_appended.
  unfold execute_function_call. rewrite bind_emit. decide_names.
  rewrite (bind_lift _ _ _ _ _ (AgentRuns.as_kwargs_keys_among _ _ _ Hk)).
  rewrite (bind_lift _ _ _ _ _ (AgentRuns.kwarg_present _ _ _ _ _ Ha)).
  do 4 rewrite (bind_lift _ _ _ _ _ (AgentRuns.kwarg_get_or _ _ _ _)).
  unfold get_nft_gaming_metrics_by_contract. rewrite gaming_fetch_state.
  simpl. now rewrite <- app_assoc.
Qed.

(** X25.  [get_nft_gaming_metrics_by_game], called through the dispatcher
    with a game: when the game is a string, one GET is sent to
    [<base URL>/collection/metrics] with the name in lower case; when it
    is anything else, [game.lower()] raises before the [try] block is
    entered, so that the exception leaves the dispatcher and no GET is
    sent. *)
Theorem get_nft_gaming_metrics_by_game_lowers_the_name self kw game w s :
  keys_among ["game"; "blockchain"; "time_range"; "limit"; "offset"] kw = true ->
  dict_get "game" kw = Some game ->
  match game with
  | JStr name =>
      events_of
        (execute_function_call lower self "get_nft_gaming_metrics_by_game" (JObj kw))
        w s =
        [AgExecute "get_nft_gaming_metrics_by_game" (JObj kw);
         AgGet (HttpRequest [Lit base_url; Lit "/collection/metrics"]
                  [("accept", "application/json"); ("x-api-key", api_key self)]
                  [("blockchain", Service.get_or "blockchain" (JStr "ethereum") kw);
                   ("game", JStr (lower name));
                   ("time_range", Service.get_or "time_range" (JStr "24h") kw);
                   ("offset", Service.get_or "offset" (JNum 0) kw);
                   ("limit", Service.get_or "limit" (JNum 30) kw);
                   ("sort_by", JStr "total_users"); ("sort_order", JStr "desc")])]
  | _ =>
      execute_function_call lower self "get_nft_gaming_metrics_by_game" (JObj kw)
        w s =
        (inl (Exc OtherException
                ("'" ++ type_name game ++ "' object has no attribute 'lower'")),
         logged s [AgExecute "get_nft_gaming_metrics_by_game" (JObj kw)])
  end.
Proof.
  intros Hk Hg.
  assert (E : execute_function_call lower self "get_nft_gaming_metrics_by_game"
                (JObj kw) w s =
              get_nft_gaming_metrics_by_game lower self game
                (Service.get_or "blockchain" (JStr "ethereum") kw)
                (Service.get_or "time_range" (JStr "24h") kw)
                (Service.get_or "limit" (JNum 30) kw)
                (Service.get_or "offset" (JNum 0) kw) w
                (logged s [AgExecute "get_nft_gaming_metrics_by_game" (JObj kw)])).
  { unfold execute_function_call. rewrite bind_emit. decide_names.
    rewrite (bind_lift _ _ _ _ _ (AgentRuns.as_kwargs_keys_among _ _ _ Hk)).
    rewrite (bind_lift _ _ _ _ _ (AgentRuns.kwarg_present _ _ _ _ _ Hg)).
    do 4 rewrite (bind_lift _ _ _ _ _ (AgentRuns.kwarg_get_or _ _ _ _)).
    reflexivity. }
  destruct game; try (rewrite E; reflexivity).
  apply events_of_appended. rewrite E.
  unfold get_nft_gaming_metrics_by_game. simpl game_lower.
  rewrite (bind_lift _ _ _ _ _ eq_refl), gaming_fetch_state.
  simpl. now rewrite <- app_assoc.
Qed.

End Lowercase.

Lemma get_game_contracts_info_without_arguments :
  events_of
    (execute_function_call lower_ascii gaming_agent "get_game_contracts_info"
       (JObj [("blockchain", JStr "")]))
    Scenarios.silent start =
    [AgExecute "get_game_contracts_info" (JObj [("blockchain", JStr "")]);
     AgGet (HttpRequest [Lit base_url; Lit "/metrics"]
              [("accept", "application/json"); ("x-api-key", api_key gaming_agent)]
              ([("offset", Service.get_or "offset" (JNum 0) [("blockchain", JStr "")]);
                ("limit", Service.get_or "limit" (JNum 30) [("blockchain", JStr "")]);
                ("sort_by", JStr "game"); ("sort_order", JStr "desc")] ++
               if truthy (Service.get_or "blockchain" JNull [("blockchain", JStr "")])
               then [("blockchain",
                      Service.get_or "blockchain" JNull [("blockchain", JStr "")])]
               else []))].
Proof.
  apply (get_game_contracts_info_sends_a_blockchain_only_when_given lower_ascii
           gaming_agent [("blockchain", JStr "")] Scenarios.silent start).
  reflexivity.
Defined.

Lemma get_nft_gaming_metrics_by_contract_on_ethereum :
  events_of
    (execute_function_call lower_ascii gaming_agent
       "get_nft_gaming_metrics_by_contract"
       (JObj [("contract_address", JStr "0xabc")]))
    Scenarios.silent start =
    [AgExecute "get_nft_gaming_metrics_by_contract"
       (JObj [("contract_address", JStr "0xabc")]);
     AgGet (HttpRequest [Lit base_url; Lit "/contract/metrics"]
              [("accept", "application/json"); ("x-api-key", api_key gaming_agent)]
              [("blockchain",
                Service.get_or "blockchain" (JStr "ethereum")
                  [("contract_address", JStr "0xabc")]);
               ("contract_address", JStr "0xabc");
               ("time_range",
                Service.get_or "time_range" (JStr "24h")
                  [("contract_address", JStr "0xabc")]);
               ("offset",
                Service.get_or "offset" (JNum 0) [("contract_address", JStr "0xabc")]);
               ("limit",
                Service.get_or "limit" (JNum 30) [("contract_address", JStr "0xabc")]);
               ("sort_by", JStr "total_users"); ("sort_order", JStr "desc")])].
Proof.
  apply (get_nft_gaming_metrics_by_contract_sorts_by_total_users lower_ascii
           gaming_agent [("contract_address", JStr "0xabc")] (JStr "0xabc")
           Scenarios.silent start).
  - reflexivity.
  - reflexivity.
Defined.

Lemma get_nft_gaming_metrics_by_game_on_a_number :
  match JNum 7 with
  | JStr name =>
      events_of
        (execute_function_call lower_ascii gaming_agent
           "get_nft_gaming_metrics_by_game" (JObj [("game", JNum 7)]))
        Scenarios.silent start =
        [AgExecute "get_nft_gaming_metrics_by_game" (JObj [("game", JNum 7)]);
         AgGet (HttpRequest [Lit base_url; Lit "/collection/metrics"]
                  [("accept", "application/json");
                   ("x-api-key", api_key gaming_agent)]
                  [("blockchain",
                    Service.get_or "blockchain" (JStr "ethereum") [("game", JNum 7)]);
                   ("game", JStr (lower_ascii name));
                   ("time_range",
                    Service.get_or "time_range" (JStr "24h") [("game", JNum 7)]);
                   ("offset", Service.get_or "offset" (JNum 0) [("game", JNum 7)]);
                   ("limit", Service.get_or "limit" (JNum 30) [("game", JNum 7)]);
                   ("sort_by", JStr "total_users"); ("sort_order", JStr "desc")])]
  | _ =>
      execute_function_call lower_ascii gaming_agent
        "get_nft_gaming_metrics_by_game" (JObj [("game", JNum 7)])
        Scenarios.silent start =
        (inl (Exc OtherException
                ("'" ++ type_name (JNum 7) ++ "' object has no attribute 'lower'")),
         logged start
           [AgExecute "get_nft_gaming_metrics_by_game" (JObj [("game", JNum 7)])])
  end.
Proof.
  apply (get_nft_gaming_metrics_by_game_lowers_the_name lower_ascii gaming_agent
           [("game", JNum 7)] (JNum 7) Scenarios.silent start).
  - reflexivity.
  - reflexivity.
Defined.

End GamingRuns.
